(** * The reminder lifecycle of [src/App.js]

    A shallow embedding of the [App] component of the quick-reminder
    application: the duration converter [getMilliseconds], the scheduling
    and cancellation operations, the two compaction functions over the
    [reminders] list and the app-state handler that drives the resume
    compaction.

    Conventions of the embedding.
    - A JavaScript string is a [string]: a sequence of code units, here
      those below 256.
    - The numbers that occur are [NaN], the two infinities and doubles
      whose value is an integer ([parseInt] results, products by 1000 and
      60, time values in milliseconds).  [Js.Int z] is the double of value
      [z]; [parseInt] and the arithmetic round the exact result to the
      nearest double ([Js.round]), which changes no integer up to
      [2^53 - 1] and gives an infinity from [2^1024 - 2^970] on.  The
      integer [2^1024], which no double reaches, stands for [Infinity].
    - A [Date] is its time value in milliseconds, [NaN] for an invalid
      date: [Js.newDate] clips a number to the range of time values, and
      [Js.toISOString] throws on an invalid date.  The ISO string kept in
      [scheduledFor] stands for the time value it prints
      ([new Date(d.toISOString()).getTime() = d.getTime()]).
    - The notification gateway ([expo-notifications]) and the clock are
      outside the program: a gateway call suspends the operation and the
      answer (resolved or rejected) is an input of its continuation; the
      clock reading, a time value, is an argument. *)

From Stdlib Require Import ZArith Lia Bool Ascii String.
From Stdlib Require Import Decimal DecimalString DecimalPos.
From Stdlib Require Hexadecimal HexadecimalString HexadecimalPos HexadecimalN.
From stdpp Require Import base list strings.

Local Open Scope string_scope.
Local Open Scope Z_scope.

(** ** Numbers *)

(** [Number.MAX_SAFE_INTEGER], that is [2^53 - 1]: every integer up to it
    is a double.  The largest time value of a [Date], 8.64e15. *)
Definition max_safe_integer : Z := 9007199254740991.
Definition max_time_value : Z := 8640000000000000.

Module Js.

(** A number of the program: [NaN], or the double of integer value [z];
    [Int infinity] and [Int (- infinity)] are the two infinities. *)
Inductive number : Type :=
| NaN
| Int (z : Z).

Definition infinity : Z := 2 ^ 1024.

(** The double nearest to the integer [z], ties going to the even
    significand (ECMA-262, 6.1.6.1).  A double has a significand of 53
    bits: an integer of magnitude [a] beyond [2^53 - 1] lies between two
    consecutive multiples of [ulp = 2^(floor(log2 a) - 52)], and a result
    that reaches [2^1024] is an infinity.  An infinity stays one when it
    is multiplied by 60 or 1000 or added to a time value, as [infinity]
    does when the result is rounded. *)
Definition round (z : Z) : Z :=
  let a := Z.abs z in
  if a <=? max_safe_integer then z
  else
    let ulp := 2 ^ (Z.log2 a - 52) in
    let q := a / ulp in
    let r := a mod ulp in
    let q :=
      if (ulp <? 2 * r) || ((ulp =? 2 * r) && Z.odd q) then q + 1 else q in
    Z.sgn z * Z.min (q * ulp) infinity.
Arguments round : simpl never.

(** [isNaN(x)]. *)
Definition isNaN (x : number) : bool :=
  match x with NaN => true | Int _ => false end.

(** [x <= k] for an integer literal [k]; every comparison with [NaN] is
    false. *)
Definition le (x : number) (k : Z) : bool :=
  match x with NaN => false | Int z => z <=? k end.

(** [x * k] for a positive integer literal [k]; [NaN] is absorbing. *)
Definition mul (x : number) (k : Z) : number :=
  match x with NaN => NaN | Int z => Int (round (z * k)) end.

(** [k + x] for a time value [k]. *)
Definition add (k : Z) (x : number) : number :=
  match x with NaN => NaN | Int z => Int (round (k + z)) end.

(** [x > k]. *)
Definition gt (x : number) (k : Z) : bool :=
  match x with NaN => false | Int z => k <? z end.

(** [new Date(value)], as its time value: [TimeClip(value)] (ECMA-262,
    21.4.1.31), which is [NaN], an invalid date, when [value] is not
    finite or exceeds 8.64e15 in magnitude. *)
Definition newDate (value : number) : number :=
  match value with
  | NaN => NaN
  | Int t => if Z.abs t <=? max_time_value then Int t else NaN
  end.

(** [date.toISOString()]: a [RangeError] is thrown ([None]) when the date
    is invalid; otherwise the string, which stands for the time value. *)
Definition toISOString (date : number) : option number :=
  match date with
  | NaN => None
  | Int t => Some (Int t)
  end.

(** *** [parseInt(string)] with no radix argument (ECMA-262, 19.2.5) *)

(** White space and line terminators among the code units below 256:
    TAB, LF, VT, FF, CR, SP and NBSP. *)
Definition is_white_space (c : ascii) : bool :=
  let n := nat_of_ascii c in
  ((9 <=? n) && (n <=? 13) || (n =? 32) || (n =? 160))%nat.

(** [TrimString(inputString, start)]. *)
Fixpoint trim_start (s : string) : string :=
  match s with
  | String c rest => if is_white_space c then trim_start rest else s
  | EmptyString => s
  end.

(** The value of a code unit as a digit: 0-9, then a-z and A-Z for 10
    to 35. *)
Definition digit_value (c : ascii) : option Z :=
  let n := Z.of_nat (nat_of_ascii c) in
  if (48 <=? n) && (n <=? 57) then Some (n - 48)
  else if (97 <=? n) && (n <=? 122) then Some (n - 87)
  else if (65 <=? n) && (n <=? 90) then Some (n - 55)
  else None.

Definition radix_digit (R : Z) (c : ascii) : option Z :=
  match digit_value c with
  | Some d => if d <? R then Some d else None
  | None => None
  end.

(** Steps 11 to 14: the longest prefix of radix-[R] digits, read as a
    number; [seen] tells whether a digit was read, [acc] is the value
    so far.  No digit at all gives [NaN].  The value is the exact one,
    which [parseInt] then rounds to a double (step 16). *)
Fixpoint parse_digits (R : Z) (seen : bool) (acc : Z) (s : string) : option Z :=
  match s with
  | String c rest =>
      match radix_digit R c with
      | Some d => parse_digits R true (acc * R + d) rest
      | None => if seen then Some acc else None
      end
  | EmptyString => if seen then Some acc else None
  end.

(** Steps 8 to 10: with no radix given, a ["0x"] or ["0X"] prefix selects
    radix 16 and is removed; otherwise the radix is 10. *)
Definition strip_prefix (s : string) : Z * string :=
  match s with
  | String "0" (String "x" rest) => (16, rest)
  | String "0" (String "X" rest) => (16, rest)
  | _ => (10, s)
  end.

(** Step 16 returns the Number value for [sign * mathInt], the double
    nearest to it.  (For a decimal numeral of more than 20 significant
    digits an implementation may read the digits after the 20th as zeros;
    the exact value is taken here.) *)
Definition parseInt (input : string) : number :=
  let s := trim_start input in
  let '(sign, s) :=
    match s with
    | String "-" rest => (-1, rest)
    | String "+" rest => (1, rest)
    | _ => (1, s)
    end in
  let '(R, s) := strip_prefix s in
  match parse_digits R false 0 s with
  | None => NaN
  | Some mathInt => Int (round (sign * mathInt))
  end.

(** [String.prototype.match] with a regular expression that is a plain
    word, used as a truth value: the word occurs somewhere in the
    string. *)
Fixpoint includes (word s : string) : bool :=
  String.prefix word s ||
  match s with
  | String _ rest => includes word rest
  | EmptyString => false
  end.

(** The truthiness of a string: only the empty string is falsy. *)
Definition truthy (s : string) : bool :=
  match s with EmptyString => false | String _ _ => true end.

End Js.

(** ** The data model *)

(** The object literal built at lines 240-246.  [scheduledFor] is the time
    value the ISO string prints. *)
Module Reminder.
Record t : Type := mk {
  id : string;
  text : string;
  timeValue : Js.number;
  timeUnit : string;
  scheduledFor : Js.number
}.
End Reminder.

(** The state of the [App] component: the six [useState] cells and the
    [appState] ref. *)
Record App : Type := mkApp {
  reminderText : string;
  timeValue : string;
  timeUnit : string;
  reminders : list Reminder.t;
  toastVisible : bool;
  toastMessage : string;
  appState : string
}.

Definition setReminderText (v : string) (st : App) : App :=
  mkApp v (timeValue st) (timeUnit st) (reminders st)
        (toastVisible st) (toastMessage st) (appState st).

Definition setTimeValue (v : string) (st : App) : App :=
  mkApp (reminderText st) v (timeUnit st) (reminders st)
        (toastVisible st) (toastMessage st) (appState st).

Definition setTimeUnit (v : string) (st : App) : App :=
  mkApp (reminderText st) (timeValue st) v (reminders st)
        (toastVisible st) (toastMessage st) (appState st).

(** [setReminders] is only ever called with an updater function. *)
Definition setReminders (f : list Reminder.t -> list Reminder.t) (st : App) : App :=
  mkApp (reminderText st) (timeValue st) (timeUnit st) (f (reminders st))
        (toastVisible st) (toastMessage st) (appState st).

Definition setToastVisible (v : bool) (st : App) : App :=
  mkApp (reminderText st) (timeValue st) (timeUnit st) (reminders st)
        v (toastMessage st) (appState st).

Definition setToastMessage (v : string) (st : App) : App :=
  mkApp (reminderText st) (timeValue st) (timeUnit st) (reminders st)
        (toastVisible st) v (appState st).

(** [appState.current = v]. *)
Definition setAppState (v : string) (st : App) : App :=
  mkApp (reminderText st) (timeValue st) (timeUnit st) (reminders st)
        (toastVisible st) (toastMessage st) v.

(** The state of the first render (lines 104-110), given
    [AppState.currentState]. *)
Definition initial (currentState : string) : App :=
  mkApp "" "" "minutes" [] false "" currentState.

(** ** The notification gateway *)

Record NotificationContent : Type := mkContent {
  title : string;
  body : string;
  sound : bool
}.

Record NotificationRequest : Type := mkRequest {
  content : NotificationContent;
  trigger : Js.number
}.

Inductive GatewayCall : Type :=
| scheduleNotificationAsync (request : NotificationRequest)
| cancelScheduledNotificationAsync (identifier : string).

(** How the promise of a gateway call settles. *)
Inductive Settled (R : Type) : Type :=
| Resolved (value : R)
| Rejected (error : string).
Arguments Resolved {R} value.
Arguments Rejected {R} error.

(** How a run of an [async] function of the component ends, with the
    component state it leaves.  [Fulfilled] and [Failed]: the promise of
    the function is fulfilled, or rejected with [error].  [Crashed]: the
    function has returned, but a state updater it queued throws [error]
    when React runs it to render; with no error boundary around [App] the
    component is unmounted, and [st] is the last state it showed. *)
Inductive Completion : Type :=
| Fulfilled (st : App)
| Failed (error : string) (st : App)
| Crashed (error : string) (st : App).

Definition final (c : Completion) : App :=
  match c with Fulfilled st => st | Failed _ st => st | Crashed _ st => st end.

(** A run of an [async] function up to its (only) [await]: either it
    returns before it, or it is suspended on a gateway call with the state
    [st] it leaves behind; [resume answer cur] is the rest of the body, run
    when the call has settled with [answer], on the state [cur] the
    component has by then. *)
Inductive Async (R : Type) : Type :=
| Return (st : App)
| Await (st : App) (call : GatewayCall) (resume : Settled R -> App -> Completion).
Arguments Return {R} st.
Arguments Await {R} st call resume.

(** The whole run when nothing else happens while the call is pending. *)
Definition settle {R : Type} (run : Async R) (answer : Settled R) : Completion :=
  match run with
  | Return st => Fulfilled st
  | Await st _ resume => resume answer st
  end.

(** ** The functions of the component *)

(** Lines 148-156. *)
Definition cleanupExpiredReminders (now : Z) (st : App) : App :=
  setReminders (fun current =>
    filter (fun reminder =>
      let reminderTime := Reminder.scheduledFor reminder in
      Is_true (Js.gt reminderTime now)) current) st.

(** Lines 159-161. *)
Definition cleanupReminder (id : string) (st : App) : App :=
  setReminders (fun current =>
    filter (fun reminder => Reminder.id reminder <> id) current) st.

(** Lines 164-167. *)
Definition showToast (message : string) (st : App) : App :=
  setToastVisible true (setToastMessage message st).

(** Lines 127-132: the listener [setupNotificationHandler] registers for
    received notifications, applied to the identifier of the request. *)
Definition setupNotificationHandler (identifier : string) (st : App) : App :=
  cleanupReminder identifier st.

(** Line 138: [appState.current.match(/inactive|background/)]. *)
Definition matches_inactive_or_background (s : string) : bool :=
  Js.includes "inactive" s || Js.includes "background" s.

(** Lines 135-145: the listener [setupAppStateHandler] registers for
    ['change'] events, at the clock reading [now]. *)
Definition setupAppStateHandler (now : Z) (nextAppState : string) (st : App) : App :=
  let st :=
    if matches_inactive_or_background (appState st)
       && String.eqb nextAppState "active"
    then cleanupExpiredReminders now st
    else st in
  setAppState nextAppState st.

(** Lines 113-124: what drives the store without the user, once the
    effect has registered the two listeners and the 60-second interval. *)
Inductive Trigger : Type :=
| NotificationReceived (identifier : string)
| AppStateChange (now : Z) (nextAppState : string)
| Interval (now : Z).

Definition fire (t : Trigger) (st : App) : App :=
  match t with
  | NotificationReceived identifier => setupNotificationHandler identifier st
  | AppStateChange now nextAppState => setupAppStateHandler now nextAppState st
  | Interval now => cleanupExpiredReminders now st
  end.

(** Lines 186-198. *)
Definition getMilliseconds (value : string) (unit : string) : Js.number :=
  let numValue := Js.parseInt value in
  if String.eqb unit "seconds" then Js.mul numValue 1000
  else if String.eqb unit "minutes" then Js.mul (Js.mul numValue 60) 1000
  else if String.eqb unit "hours" then Js.mul (Js.mul (Js.mul numValue 60) 60) 1000
  else Js.mul numValue 1000.

(** Lines 240-253: what [scheduleReminder] does once the gateway call has
    settled.  [st] is the state of the render the press happened in, whose
    [reminderText] and [timeUnit] the body still reads; [numValue] and
    [trigger] are its locals; the updater given to [setReminders] runs on
    the list of the state [cur] the component has by then.  The object
    literal, and with it [trigger.toISOString()] (line 245), is evaluated
    inside that updater, which React runs when it renders the update: the
    [RangeError] of an invalid [trigger] is thrown by that render, which
    unmounts the component, and none of the updates of lines 240-250 is
    ever shown. *)
Definition scheduleReminder_resume (st : App) (numValue trigger : Js.number)
    (answer : Settled string) (cur : App) : Completion :=
  match answer with
  | Resolved id =>
      match Js.toISOString trigger with
      | Some scheduledFor =>
          let cur :=
            setReminders (fun current =>
              (current ++ [Reminder.mk id (reminderText st) numValue
                                       (timeUnit st) scheduledFor])%list) cur in
          let cur := setReminderText "" cur in
          let cur := setTimeValue "" cur in
          Fulfilled (showToast "Reminder set successfully" cur)
      | None => Crashed "RangeError" cur
      end
  | Rejected _ =>
      Fulfilled (showToast "Error setting reminder" cur)
  end.

(** Lines 215-254, at the clock reading [now]. *)
Definition scheduleReminder (now : Z) (st : App) : Async string :=
  if negb (Js.truthy (reminderText st)) || negb (Js.truthy (timeValue st)) then
    Return (showToast "Please enter both reminder text and time" st)
  else
    let numValue := Js.parseInt (timeValue st) in
    if Js.isNaN numValue || Js.le numValue 0 then
      Return (showToast "Please enter a valid number" st)
    else
      let milliseconds := getMilliseconds (timeValue st) (timeUnit st) in
      let trigger := Js.newDate (Js.add now milliseconds) in
      Await st
        (scheduleNotificationAsync
           (mkRequest (mkContent "Reminder!" (reminderText st) true) trigger))
        (scheduleReminder_resume st numValue trigger).

(** Lines 259-260: what [cancelReminder] does once the gateway call has
    settled.  There is no [try] around the [await]: a rejected call rejects
    the promise of [cancelReminder] and the two statements after it do not
    run. *)
Definition cancelReminder_resume (id : string)
    (answer : Settled unit) (cur : App) : Completion :=
  match answer with
  | Resolved _ =>
      let cur := cleanupReminder id cur in
      Fulfilled (showToast "Reminder cancelled" cur)
  | Rejected error => Failed error cur
  end.

(** Lines 257-261. *)
Definition cancelReminder (id : string) (st : App) : Async unit :=
  Await st (cancelScheduledNotificationAsync id) (cancelReminder_resume id).

(** ** Vocabulary of the statements *)

(** The decimal numeral of an integer, as [String(n)] writes it: the
    digits, after a minus sign for a negative one. *)
Definition decimal_numeral (n : Z) : string :=
  NilEmpty.string_of_int (Z.to_int n).

(** The number a sequence of decimal digits denotes, read left to right
    from the value [acc] of the digits before it. *)
Fixpoint uint_value (d : uint) (acc : Z) : Z :=
  match d with
  | Nil => acc
  | D0 d => uint_value d (acc * 10 + 0)
  | D1 d => uint_value d (acc * 10 + 1)
  | D2 d => uint_value d (acc * 10 + 2)
  | D3 d => uint_value d (acc * 10 + 3)
  | D4 d => uint_value d (acc * 10 + 4)
  | D5 d => uint_value d (acc * 10 + 5)
  | D6 d => uint_value d (acc * 10 + 6)
  | D7 d => uint_value d (acc * 10 + 7)
  | D8 d => uint_value d (acc * 10 + 8)
  | D9 d => uint_value d (acc * 10 + 9)
  end.

(** [parseInt] reads a positive integer off the string. *)
Definition parseable_as_positive_integer (s : string) : Prop :=
  exists n : Z, 0 < n /\ Js.parseInt s = Js.Int n.

(** The status messages, by what they report. *)
Definition missing_input_message : string :=
  "Please enter both reminder text and time".
Definition invalid_number_message : string := "Please enter a valid number".
Definition scheduling_failed_message : string := "Error setting reminder".
Definition scheduled_message : string := "Reminder set successfully".
Definition cancelled_message : string := "Reminder cancelled".

(** The milliseconds of one unit, an unknown tag counting as seconds. *)
Definition unit_milliseconds (unit : string) : Z :=
  if String.eqb unit "minutes" then 60000
  else if String.eqb unit "hours" then 3600000
  else 1000.

(** The ids held by the store, in order. *)
Definition ids (st : App) : list string := Reminder.id <$> reminders st.

(** The fire time of [r] is a time strictly after [now]. *)
Definition pending (now : Z) (r : Reminder.t) : Prop :=
  exists t : Z, Reminder.scheduledFor r = Js.Int t /\ now < t.

(** [word] occurs in [s]. *)
Definition occurs_in (word s : string) : Prop :=
  exists pre post : string, s = pre ++ word ++ post.

(** The transition the resume trigger reacts to: the previous state matches
    [/inactive|background/] and the next one is ['active']. *)
Definition resume_transition (previous next : string) : Prop :=
  (occurs_in "inactive" previous \/ occurs_in "background" previous) /\
  next = "active".

(** What a cancellation would achieve if it removed the entry whatever the
    gateway answers: one record fewer, none with the id, and the
    message. *)
Definition cancellation_removes (X : string) (cur : App) (answer : Settled unit) : Prop :=
  let after := final (cancelReminder_resume X answer cur) in
  S (length (reminders after)) = length (reminders cur) /\
  (X ∉ ids after) /\
  toastMessage after = cancelled_message.

(** *** Sample data *)

Definition call_mom : Reminder.t :=
  Reminder.mk "n1" "Call mom" (Js.Int 2) "minutes" (Js.Int 120000).
Definition water_plants : Reminder.t :=
  Reminder.mk "n2" "Water the plants" (Js.Int 130) "seconds" (Js.Int 130000).
Definition walk_dog : Reminder.t :=
  Reminder.mk "n3" "Walk the dog" (Js.Int 1) "hours" (Js.Int 3725000).

(** The form filled in with "Call mom" in 2 minutes, nothing pending. *)
Definition typed_call_mom : App :=
  setTimeValue "2" (setReminderText "Call mom" (initial "active")).

(** The same label due in 2400000001 hours, which is 3600000 ms more than
    the largest time value. *)
Definition typed_far_future : App :=
  setTimeUnit "hours" (setTimeValue "2400000001" typed_call_mom).

(** One and three pending reminders. *)
Definition one_pending : App :=
  setReminders (fun _ => [call_mom]) (initial "active").
Definition three_pending : App :=
  setReminders (fun _ => [call_mom; water_plants; walk_dog]) (initial "background").

(** ** The rest of the component *)

(** A number in a template literal: [NaN], or the decimal numeral of an
    integer (as [String(n)] writes the integers below 1e21, those of the
    magnitudes a stored reminder can have). *)
Definition Number_toString (x : Js.number) : string :=
  match x with Js.NaN => "NaN" | Js.Int n => decimal_numeral n end.

(** Lines 201-212. *)
Definition formatTimeLeft (value : Js.number) (unit : string) : string :=
  if String.eqb unit "seconds" then Number_toString value ++ " seconds"
  else if String.eqb unit "minutes" then Number_toString value ++ " minutes"
  else if String.eqb unit "hours" then Number_toString value ++ " hours"
  else Number_toString value ++ " " ++ unit.

(** Line 65: the buttons of [TimeUnitSelector]; the button of [unit] calls
    [onSelectUnit(unit)], which is [setTimeUnit]. *)
Definition units : list string := ["seconds"; "minutes"; "hours"].

(** Lines 170-183.  [registerForPushNotificationsAsync] awaits the
    permission it has and, if that is not ['granted'], the answer to a
    request; a run is the calls it makes one after the other, and it ends
    with what it does to the state the component has by then. *)
Inductive PermissionCall : Type :=
| getPermissionsAsync
| requestPermissionsAsync.

Inductive Registration : Type :=
| Registered (finish : App -> Completion)
| AskPermission (call : PermissionCall) (next : Settled string -> Registration).

(** Lines 179-182. *)
Definition registration_end (finalStatus : string) : Registration :=
  if negb (String.eqb finalStatus "granted") then
    Registered (fun cur =>
      Fulfilled (showToast "Failed to get notification permissions" cur))
  else Registered Fulfilled.

Definition registerForPushNotificationsAsync : Registration :=
  AskPermission getPermissionsAsync (fun answer =>
    match answer with
    | Rejected error => Registered (Failed error)
    | Resolved existingStatus =>
        if negb (String.eqb existingStatus "granted") then
          AskPermission requestPermissionsAsync (fun answer =>
            match answer with
            | Rejected error => Registered (Failed error)
            | Resolved status => registration_end status
            end)
        else registration_end existingStatus
    end).

(** A run of the registration against the answers of the gateway, in
    order: the calls made and, when the answers sufficed, the end. *)
Fixpoint register_with (r : Registration) (answers : list (Settled string))
    : list PermissionCall * option (App -> Completion) :=
  match r with
  | Registered finish => ([], Some finish)
  | AskPermission call next =>
      match answers with
      | [] => ([call], None)
      | answer :: answers =>
          let '(calls, finish) := register_with (next answer) answers in
          (call :: calls, finish)
      end
  end.

(** *** The component among its events *)

(** A gateway call that has not settled yet, with the rest of the
    operation that waits for it. *)
Inductive Pending : Type :=
| PendingSchedule (resume : Settled string -> App -> Completion)
| PendingCancel (resume : Settled unit -> App -> Completion).

Record System : Type := mkSystem {
  component : App;
  inflight : list Pending
}.

(** Everything that calls a state setter of [App]: the two text inputs
    (lines 288, 307), the unit buttons (line 293), the two pressable
    operations (lines 318, 349, the latter on the row with that index),
    the toast hiding itself (line 365), the two listeners and the interval
    (lines 114-117), the registration ending with the answers it got, and
    a pending gateway call settling. *)
Inductive Event : Type :=
| ChangeReminderText (text : string)
| ChangeTimeValue (text : string)
| PressUnit (button : nat)
| PressSetReminder (now : Z)
| PressCancel (index : nat)
| HideToast
| Fire (t : Trigger)
| RegistrationEnds (answers : list (Settled string))
| SettleSchedule (k : nat) (answer : Settled string)
| SettleCancel (k : nat) (answer : Settled unit).

(** What an event does; [None] for an event that cannot happen (a button
    or a row that is not there, a call that is not pending, answers that
    do not end the registration).  A component that has crashed handles no
    further event; the sequences go on from the last state it showed, which
    only adds runs to those of the code. *)
Definition dispatch (e : Event) (sys : System) : option System :=
  let st := component sys in
  match e with
  | ChangeReminderText text => Some (mkSystem (setReminderText text st) (inflight sys))
  | ChangeTimeValue text => Some (mkSystem (setTimeValue text st) (inflight sys))
  | PressUnit button =>
      match units !! button with
      | Some unit => Some (mkSystem (setTimeUnit unit st) (inflight sys))
      | None => None
      end
  | PressSetReminder now =>
      match scheduleReminder now st with
      | Return st' => Some (mkSystem st' (inflight sys))
      | Await st' _ resume =>
          Some (mkSystem st' (inflight sys ++ [PendingSchedule resume]))
      end
  | PressCancel index =>
      match reminders st !! index with
      | Some reminder =>
          match cancelReminder (Reminder.id reminder) st with
          | Return st' => Some (mkSystem st' (inflight sys))
          | Await st' _ resume =>
              Some (mkSystem st' (inflight sys ++ [PendingCancel resume]))
          end
      | None => None
      end
  | HideToast => Some (mkSystem (setToastVisible false st) (inflight sys))
  | Fire t => Some (mkSystem (fire t st) (inflight sys))
  | RegistrationEnds answers =>
      match register_with registerForPushNotificationsAsync answers with
      | (_, Some finish) => Some (mkSystem (final (finish st)) (inflight sys))
      | (_, None) => None
      end
  | SettleSchedule k answer =>
      match inflight sys !! k with
      | Some (PendingSchedule resume) =>
          Some (mkSystem (final (resume answer st)) (delete k (inflight sys)))
      | _ => None
      end
  | SettleCancel k answer =>
      match inflight sys !! k with
      | Some (PendingCancel resume) =>
          Some (mkSystem (final (resume answer st)) (delete k (inflight sys)))
      | _ => None
      end
  end.

Fixpoint run (events : list Event) (sys : System) : option System :=
  match events with
  | [] => Some sys
  | e :: events =>
      match dispatch e sys with
      | Some sys' => run events sys'
      | None => None
      end
  end.

(** The component as mounted, nothing pending. *)
Definition boot (currentState : string) : System :=
  mkSystem (initial currentState) [].

(** The ids the gateway answered schedule calls with, in order. *)
Fixpoint issued (events : list Event) : list string :=
  match events with
  | [] => []
  | SettleSchedule _ (Resolved id) :: events => id :: issued events
  | _ :: events => issued events
  end.

(** What the data model asks of a stored reminder: a label, a positive
    integer magnitude, one of the three units and a fire time that is a
    time value. *)
Definition well_formed (r : Reminder.t) : Prop :=
  Reminder.text r <> "" /\
  (exists n : Z, 0 < n /\ Reminder.timeValue r = Js.Int n) /\
  Reminder.timeUnit r ∈ units /\
  (exists t : Z, Reminder.scheduledFor r = Js.Int t).

(** A pending call is one the two operations made: a schedule call for
    validated input with one of the three units, or a cancel call. *)
Definition pending_ok (p : Pending) : Prop :=
  match p with
  | PendingSchedule resume =>
      exists (st : App) (n : Z) (trigger : Js.number),
        resume = scheduleReminder_resume st (Js.Int n) trigger /\
        0 < n /\ reminderText st <> "" /\ timeUnit st ∈ units
  | PendingCancel resume => exists id : string, resume = cancelReminder_resume id
  end.

Definition system_ok (sys : System) : Prop :=
  timeUnit (component sys) ∈ units /\
  Forall well_formed (reminders (component sys)) /\
  Forall pending_ok (inflight sys).

(** Only white space. *)
Fixpoint blank (w : string) : bool :=
  match w with
  | EmptyString => true
  | String c rest => Js.is_white_space c && blank rest
  end.

(** ["0x"] and the hexadecimal digits of a natural number (in lower
    case). *)
Definition hex_numeral (n : N) : string :=
  "0x" ++ HexadecimalString.NilEmpty.string_of_uint (N.to_hex_uint n).

(** The number a sequence of hexadecimal digits denotes, from the value
    [acc] of the digits before it. *)
Fixpoint hex_value (d : Hexadecimal.uint) (acc : Z) : Z :=
  match d with
  | Hexadecimal.Nil => acc
  | Hexadecimal.D0 d => hex_value d (acc * 16 + 0)
  | Hexadecimal.D1 d => hex_value d (acc * 16 + 1)
  | Hexadecimal.D2 d => hex_value d (acc * 16 + 2)
  | Hexadecimal.D3 d => hex_value d (acc * 16 + 3)
  | Hexadecimal.D4 d => hex_value d (acc * 16 + 4)
  | Hexadecimal.D5 d => hex_value d (acc * 16 + 5)
  | Hexadecimal.D6 d => hex_value d (acc * 16 + 6)
  | Hexadecimal.D7 d => hex_value d (acc * 16 + 7)
  | Hexadecimal.D8 d => hex_value d (acc * 16 + 8)
  | Hexadecimal.D9 d => hex_value d (acc * 16 + 9)
  | Hexadecimal.Da d => hex_value d (acc * 16 + 10)
  | Hexadecimal.Db d => hex_value d (acc * 16 + 11)
  | Hexadecimal.Dc d => hex_value d (acc * 16 + 12)
  | Hexadecimal.Dd d => hex_value d (acc * 16 + 13)
  | Hexadecimal.De d => hex_value d (acc * 16 + 14)
  | Hexadecimal.Df d => hex_value d (acc * 16 + 15)
  end.

(** The message of the registration, and the messages the component ever
    shows. *)
Definition permission_message : string := "Failed to get notification permissions".
Definition messages : list string :=
  [missing_input_message; invalid_number_message; scheduling_failed_message;
   scheduled_message; cancelled_message; permission_message].

(** A toast that is visible carries one of the messages. *)
Definition toast_ok (st : App) : Prop :=
  toastVisible st = true -> toastMessage st ∈ messages.

(** A session used as an example: type, pick minutes, press at 1000, the
    gateway answers "n1", the interval fires; and the state it ends in. *)
Definition sample_session : list Event :=
  [ChangeReminderText "Call mom"; ChangeTimeValue "2"; PressUnit 1%nat;
   PressSetReminder 1000; SettleSchedule 0%nat (Resolved "n1");
   Fire (Interval 60000)].

Definition sample_end : System :=
  mkSystem
    (mkApp "" "" "minutes"
       [Reminder.mk "n1" "Call mom" (Js.Int 2) "minutes" (Js.Int 121000)]
       true "Reminder set successfully" "active")
    [].

(** * Properties *)

(** ** Rounding to a double *)

(** The integers up to [2^53 - 1] are doubles. *)
Lemma round_exact (z : Z) : Z.abs z <= max_safe_integer -> Js.round z = z.
Proof. intros H. unfold Js.round. now apply Z.leb_le in H as ->. Qed.

(** Beyond them the nearest double has the sign of the number and a
    magnitude beyond them too. *)
Lemma round_large_abs (z : Z) :
  max_safe_integer < Z.abs z ->
  exists m, max_safe_integer < m /\ Js.round z = Z.sgn z * m.
Proof.
  intros H. unfold Js.round.
  destruct (Z.leb_spec (Z.abs z) max_safe_integer) as [|_]; [lia|].
  set (a := Z.abs z) in *.
  assert (Ha : 0 < a) by (unfold max_safe_integer in H; lia).
  pose proof (Z.log2_spec a Ha) as [Hlo Hhi].
  assert (H53 : 53 <= Z.log2 a).
  { apply Z.log2_le_pow2; trivial. unfold max_safe_integer in H.
    change (2 ^ 53) with 9007199254740992. lia. }
  set (e := Z.log2 a - 52) in *.
  assert (Hulp : 0 < 2 ^ e) by (apply Z.pow_pos_nonneg; lia).
  assert (Hq : 2 ^ 52 <= a / 2 ^ e).
  { apply Z.div_le_lower_bound; trivial.
    rewrite <- Z.pow_add_r by lia. replace (e + 52) with (Z.log2 a) by lia.
    exact Hlo. }
  eexists. split; [|reflexivity].
  apply Z.min_glb_lt; [|reflexivity].
  set (q := a / 2 ^ e) in *.
  assert (H2 : 2 <= 2 ^ e).
  { change 2 with (2 ^ 1) at 1. apply Z.pow_le_mono_r; lia. }
  change (2 ^ 52) with 4503599627370496 in Hq. unfold max_safe_integer.
  destruct ((2 ^ e <? 2 * (a mod 2 ^ e))
            || ((2 ^ e =? 2 * (a mod 2 ^ e)) && Z.odd q)); nia.
Qed.

Lemma round_large (z : Z) : max_safe_integer < z -> max_safe_integer < Js.round z.
Proof.
  intros H. destruct (round_large_abs z) as (m & Hm & ->).
  - unfold max_safe_integer in *. lia.
  - rewrite Z.sgn_pos by (unfold max_safe_integer in H; lia). lia.
Qed.

Lemma round_pos (z : Z) : 0 < z -> 0 < Js.round z.
Proof.
  intros H. destruct (Z.le_gt_cases z max_safe_integer) as [Hle|Hgt].
  - rewrite round_exact; lia.
  - apply round_large in Hgt. unfold max_safe_integer in Hgt. lia.
Qed.

Lemma round_nonpos (z : Z) : z <= 0 -> Js.round z <= 0.
Proof.
  intros H. destruct (Z.le_gt_cases (Z.abs z) max_safe_integer) as [Hle|Hgt].
  - rewrite round_exact; lia.
  - destruct (round_large_abs z Hgt) as (m & Hm & ->).
    unfold max_safe_integer in *. rewrite Z.sgn_neg by lia. lia.
Qed.

(** A result within the safe integers was not rounded. *)
Lemma round_safe_inv (z : Z) :
  Z.abs (Js.round z) <= max_safe_integer -> Js.round z = z.
Proof.
  intros H. destruct (Z.le_gt_cases (Z.abs z) max_safe_integer) as [Hle|Hgt].
  - now apply round_exact.
  - destruct (round_large_abs z Hgt) as (m & Hm & E). rewrite E in H.
    unfold max_safe_integer in *. lia.
Qed.

Example round_examples :
  Js.round 9007199254740992 = 9007199254740992 /\
  Js.round 9007199254740993 = 9007199254740992 /\
  Js.round 9007199254740995 = 9007199254740996 /\
  Js.round (- 9007199254740995) = - 9007199254740996 /\
  Js.round (2 ^ 1024 - 2 ^ 970 - 1) = 2 ^ 1024 - 2 ^ 971 /\
  Js.round (2 ^ 1024 - 2 ^ 970) = Js.infinity /\
  Js.round (10 ^ 400) = Js.infinity /\
  Js.mul (Js.Int Js.infinity) 1000 = Js.Int Js.infinity /\
  Js.add max_time_value (Js.Int Js.infinity) = Js.Int Js.infinity /\
  Js.newDate (Js.Int Js.infinity) = Js.NaN.
Proof. repeat split; vm_compute; reflexivity. Qed.

(** ** [parseInt] on decimal numerals *)

Lemma uint_value_of_uint_acc (d : uint) (acc : positive) :
  uint_value d (Z.pos acc) = Z.pos (Pos.of_uint_acc d acc).
Proof.
  revert acc.
  induction d; intros acc; cbn [uint_value Pos.of_uint_acc]; trivial;
    rewrite <- IHd; f_equal; lia.
Qed.

Lemma uint_value_of_uint (d : uint) :
  uint_value d 0 = Z.of_N (Pos.of_uint d).
Proof.
  induction d; simpl; trivial; apply uint_value_of_uint_acc.
Qed.

Lemma parse_digits_string_of_uint (d : uint) (acc : Z) :
  Js.parse_digits 10 true acc (NilEmpty.string_of_uint d) = Some (uint_value d acc).
Proof.
  revert acc.
  induction d; intros acc; cbn [NilEmpty.string_of_uint uint_value Js.parse_digits];
    trivial; apply IHd.
Qed.

(** Tests on a literal code unit are settled by evaluation. *)
Ltac eval_char_tests :=
  repeat match goal with
  | |- context [Js.is_white_space ?c] =>
      let v := eval vm_compute in (Js.is_white_space c) in
      change (Js.is_white_space c) with v
  | |- context [Js.radix_digit ?R ?c] =>
      let v := eval vm_compute in (Js.radix_digit R c) in
      change (Js.radix_digit R c) with v
  end.

Ltac parseInt_on_digits :=
  unfold Js.parseInt;
  cbn [NilEmpty.string_of_uint Js.trim_start]; eval_char_tests;
  cbn [Js.strip_prefix Js.parse_digits uint_value]; eval_char_tests; cbn iota;
  rewrite ?parse_digits_string_of_uint; do 2 f_equal; lia.

Lemma parseInt_string_of_uint (d : uint) :
  d <> Nil ->
  Js.parseInt (NilEmpty.string_of_uint d) = Js.Int (Js.round (uint_value d 0)).
Proof.
  intros Hd.
  destruct d as [|d|d|d|d|d|d|d|d|d|d]; [contradiction|..];
    destruct d; parseInt_on_digits.
Qed.

Lemma parseInt_minus_string_of_uint (d : uint) :
  d <> Nil ->
  Js.parseInt (String "-" (NilEmpty.string_of_uint d))
  = Js.Int (Js.round (- uint_value d 0)).
Proof.
  intros Hd.
  destruct d as [|d|d|d|d|d|d|d|d|d|d]; [contradiction|..];
    destruct d; parseInt_on_digits.
Qed.

(** [parseInt] reads the decimal numeral of an integer as the double
    nearest to it. *)
Lemma parseInt_decimal_numeral_round (n : Z) :
  Js.parseInt (decimal_numeral n) = Js.Int (Js.round n).
Proof.
  destruct n as [|p|p]; unfold decimal_numeral; cbn [Z.to_int NilEmpty.string_of_int].
  - reflexivity.
  - rewrite parseInt_string_of_uint by apply DecimalPos.Unsigned.to_uint_nonnil.
    now rewrite uint_value_of_uint, DecimalPos.Unsigned.of_to.
  - rewrite parseInt_minus_string_of_uint by apply DecimalPos.Unsigned.to_uint_nonnil.
    now rewrite uint_value_of_uint, DecimalPos.Unsigned.of_to.
Qed.

(** Within the safe integers it reads the integer back. *)
Lemma parseInt_decimal_numeral (n : Z) :
  Z.abs n <= max_safe_integer -> Js.parseInt (decimal_numeral n) = Js.Int n.
Proof.
  intros Hn. now rewrite parseInt_decimal_numeral_round, round_exact.
Qed.

(** A numeral read as a safe integer is the numeral of that integer. *)
Lemma parseInt_decimal_numeral_inv (m n : Z) :
  Js.parseInt (decimal_numeral m) = Js.Int n -> Z.abs n <= max_safe_integer ->
  m = n.
Proof.
  rewrite parseInt_decimal_numeral_round. intros [= E] Hn.
  rewrite <- E in Hn. apply round_safe_inv in Hn. congruence.
Qed.

Example parseInt_examples :
  Js.parseInt "2" = Js.Int 2 /\ Js.parseInt "0" = Js.Int 0 /\
  Js.parseInt "-3" = Js.Int (-3) /\ Js.parseInt "abc" = Js.NaN /\
  Js.parseInt "" = Js.NaN /\ Js.parseInt " 42" = Js.Int 42 /\
  Js.parseInt "0x1f" = Js.Int 31 /\ Js.parseInt "0x" = Js.NaN /\
  Js.parseInt "3x" = Js.Int 3 /\ Js.parseInt "2.9" = Js.Int 2 /\
  Js.parseInt "9007199254740993" = Js.Int 9007199254740992.
Proof. repeat split. Qed.

(** *** Lenient parsing *)

Lemma append_nil_l (s : string) : "" ++ s = s.
Proof. reflexivity. Qed.

Lemma append_cons (a : ascii) (s t : string) : String a s ++ t = String a (s ++ t).
Proof. reflexivity. Qed.

Lemma append_cons_neq (s : string) (c : ascii) (rest : string) :
  s <> s ++ String c rest.
Proof.
  induction s as [|a s IH]; [discriminate|].
  rewrite append_cons. intros [= E]. now apply IH.
Qed.

Lemma parse_digits_string_of_uint_app (d : uint) (acc : Z) (c : ascii) (rest : string) :
  Js.radix_digit 10 c = None ->
  Js.parse_digits 10 true acc (NilEmpty.string_of_uint d ++ String c rest)
  = Some (uint_value d acc).
Proof.
  intros Hc. revert acc.
  induction d; intros acc; cbn [NilEmpty.string_of_uint uint_value];
    rewrite ?append_nil_l, ?append_cons; cbn [Js.parse_digits];
    [now rewrite Hc | apply IHd ..].
Qed.

Lemma nzhead_not_D0 (d e : uint) : nzhead d <> D0 e.
Proof. induction d; cbn [nzhead]; trivial; discriminate. Qed.

(** The numeral of a positive integer has no leading zero. *)
Lemma to_uint_not_D0 (p : positive) (d : uint) : Pos.to_uint p <> D0 d.
Proof.
  intros E.
  pose proof (DecimalPos.Unsigned.to_of (Pos.to_uint p)) as H.
  rewrite DecimalPos.Unsigned.of_to in H. cbn [N.to_uint] in H.
  rewrite E in H. unfold unorm in H. cbn [nzhead] in H.
  destruct (nzhead d) eqn:Hd; try discriminate H.
  - injection H as ->. now apply (DecimalPos.Unsigned.to_uint_nonzero p).
  - now apply nzhead_not_D0 in Hd.
Qed.

(** [parseInt] stops at the first code unit that is not a digit and
    returns the number read so far. *)
Lemma parseInt_lenient_prefix_round (n : Z) (c : ascii) (rest : string) :
  0 < n -> Js.radix_digit 10 c = None ->
  Js.parseInt (decimal_numeral n ++ String c rest) = Js.Int (Js.round n).
Proof.
  intros Hn Hc. destruct n as [|p|p]; try lia.
  unfold decimal_numeral. cbn [Z.to_int NilEmpty.string_of_int].
  pose proof (to_uint_not_D0 p) as H0.
  pose proof (DecimalPos.Unsigned.of_to p) as Hp.
  destruct (Pos.to_uint p) as [|d|d|d|d|d|d|d|d|d|d] eqn:E;
    [discriminate Hp | now destruct (H0 d) |..];
    unfold Js.parseInt;
    cbn [NilEmpty.string_of_uint]; rewrite append_cons;
    cbn [Js.trim_start]; eval_char_tests;
    cbn [Js.strip_prefix Js.parse_digits]; eval_char_tests; cbn iota;
    rewrite parse_digits_string_of_uint_app by assumption;
    rewrite Z.mul_1_l; do 2 f_equal;
    change (0 * 10 + ?k) with k;
    rewrite uint_value_of_uint_acc; cbn [Pos.of_uint] in Hp; congruence.
Qed.

Lemma parseInt_lenient_prefix (n : Z) (c : ascii) (rest : string) :
  0 < n <= max_safe_integer -> Js.radix_digit 10 c = None ->
  Js.parseInt (decimal_numeral n ++ String c rest) = Js.Int n.
Proof.
  intros Hn Hc. rewrite parseInt_lenient_prefix_round by easy.
  rewrite round_exact; [reflexivity | lia].
Qed.

(** Such a string is the numeral of no integer. *)
Lemma decimal_numeral_not_prefix (n m : Z) (c : ascii) (rest : string) :
  0 < n <= max_safe_integer -> Js.radix_digit 10 c = None ->
  decimal_numeral m <> decimal_numeral n ++ String c rest.
Proof.
  intros Hn Hc E.
  assert (Hm : m = n).
  { apply (parseInt_decimal_numeral_inv m n); [|lia].
    rewrite E. now apply parseInt_lenient_prefix. }
  subst m. now apply append_cons_neq in E.
Qed.

(** A string whose first code unit is neither white space, nor a sign, nor
    a decimal digit is not a number for [parseInt]. *)
Lemma parseInt_not_a_number (c : ascii) (rest : string) :
  Js.is_white_space c = false -> c <> "-"%char -> c <> "+"%char ->
  Js.radix_digit 10 c = None ->
  Js.parseInt (String c rest) = Js.NaN.
Proof.
  intros Hw Hm Hp Hd. unfold Js.parseInt. cbn [Js.trim_start]. rewrite Hw.
  assert (Hsign :
    match String c rest with
    | String "-" r => (-1, r)
    | String "+" r => (1, r)
    | _ => (1, String c rest)
    end = (1, String c rest)).
  { destruct c as [[] [] [] [] [] [] [] []]; try reflexivity; congruence. }
  rewrite Hsign.
  assert (Hpre : Js.strip_prefix (String c rest) = (10, String c rest)).
  { unfold Js.strip_prefix.
    destruct c as [[] [] [] [] [] [] [] []]; try reflexivity.
    vm_compute in Hd. discriminate Hd. }
  rewrite Hpre. cbn [Js.parse_digits]. now rewrite Hd.
Qed.

(** ** The duration converter *)

Lemma unit_milliseconds_pos (unit : string) : 0 < unit_milliseconds unit.
Proof.
  unfold unit_milliseconds.
  destruct (String.eqb unit "minutes"), (String.eqb unit "hours"); lia.
Qed.

Lemma unit_milliseconds_cases (unit : string) :
  unit_milliseconds unit = 1000 \/ unit_milliseconds unit = 60000 \/
  unit_milliseconds unit = 3600000.
Proof.
  unfold unit_milliseconds.
  destruct (String.eqb unit "minutes"), (String.eqb unit "hours"); auto.
Qed.

(** A product within the safe integers is the exact one. *)
Lemma mul_exact (z k : Z) :
  Z.abs (z * k) <= max_safe_integer -> Js.mul (Js.Int z) k = Js.Int (z * k).
Proof. intros H. cbn [Js.mul]. now rewrite round_exact. Qed.

(** A duration within the safe integers is computed exactly, the products
    by 60 on the way included. *)
Lemma getMilliseconds_exact (value unit : string) (n : Z) :
  Js.parseInt value = Js.Int n ->
  Z.abs n * unit_milliseconds unit <= max_safe_integer ->
  getMilliseconds value unit = Js.Int (n * unit_milliseconds unit).
Proof.
  unfold getMilliseconds, unit_milliseconds. intros -> H.
  destruct (String.eqb_spec unit "seconds") as [->|_].
  - cbn in *. apply mul_exact. unfold max_safe_integer in *. lia.
  - unfold max_safe_integer in H.
    destruct (String.eqb unit "minutes"); [|destruct (String.eqb unit "hours")].
    + rewrite !mul_exact by (unfold max_safe_integer; lia). f_equal. lia.
    + rewrite !mul_exact by (unfold max_safe_integer; lia). f_equal. lia.
    + apply mul_exact. unfold max_safe_integer. lia.
Qed.

(** A product of non-negative numbers that is a safe integer is the exact
    one: nothing was rounded. *)
Lemma mul_safe_inv (z k w : Z) :
  0 <= z -> 0 < k -> Js.mul (Js.Int z) k = Js.Int w -> w <= max_safe_integer ->
  w = z * k /\ 0 <= w.
Proof.
  intros Hz Hk [= E] Hw.
  assert (0 <= Js.round (z * k)).
  { destruct (Z.eq_dec (z * k) 0) as [-> | ?]; [now rewrite round_exact|].
    apply Z.lt_le_incl, round_pos. nia. }
  split; [|lia]. rewrite <- E. apply round_safe_inv. lia.
Qed.

(** So a duration that is a safe integer is that of the magnitude read:
    past [2^53 - 1] every result of [getMilliseconds] is beyond the safe
    integers, rounded or not. *)
Lemma getMilliseconds_safe_inv (value unit : string) (n ms : Z) :
  Js.parseInt value = Js.Int n -> 0 <= n ->
  getMilliseconds value unit = Js.Int ms -> ms <= max_safe_integer ->
  ms = n * unit_milliseconds unit.
Proof.
  unfold getMilliseconds, unit_milliseconds. intros -> Hn H Hms.
  assert (Hmul : forall z k, Js.mul (Js.Int z) k = Js.Int (Js.round (z * k)))
    by reflexivity.
  destruct (String.eqb_spec unit "seconds") as [->|_].
  - cbn. now apply mul_safe_inv in H as [H _].
  - destruct (String.eqb unit "minutes"); [|destruct (String.eqb unit "hours")].
    + rewrite (Hmul n 60) in H.
      destruct (Z.le_gt_cases (Js.round (n * 60)) max_safe_integer) as [Hle|Hgt].
      * destruct (mul_safe_inv n 60 _ Hn ltac:(lia) (Hmul n 60) Hle) as [E1 P1].
        apply mul_safe_inv in H as [H _]; lia.
      * cbn [Js.mul] in H. injection H as H.
        assert (max_safe_integer < Js.round (Js.round (n * 60) * 1000))
          by (apply round_large; unfold max_safe_integer in *; lia).
        lia.
    + rewrite (Hmul n 60), (Hmul _ 60) in H.
      destruct (Z.le_gt_cases (Js.round (n * 60)) max_safe_integer) as [Hle|Hgt].
      * destruct (mul_safe_inv n 60 _ Hn ltac:(lia) (Hmul n 60) Hle) as [E1 P1].
        destruct (Z.le_gt_cases (Js.round (Js.round (n * 60) * 60)) max_safe_integer)
          as [Hle2|Hgt2].
        -- destruct (mul_safe_inv _ 60 _ P1 ltac:(lia) (Hmul _ 60) Hle2) as [E2 P2].
           apply mul_safe_inv in H as [H _]; lia.
        -- cbn [Js.mul] in H. injection H as H.
           assert (max_safe_integer < Js.round (Js.round (Js.round (n * 60) * 60) * 1000))
             by (apply round_large; unfold max_safe_integer in *; lia).
           lia.
      * assert (Hgt2 : max_safe_integer < Js.round (Js.round (n * 60) * 60))
          by (apply round_large; unfold max_safe_integer in *; lia).
        cbn [Js.mul] in H. injection H as H.
        assert (max_safe_integer < Js.round (Js.round (Js.round (n * 60) * 60) * 1000))
          by (apply round_large; unfold max_safe_integer in *; lia).
        lia.
    + now apply mul_safe_inv in H as [H _].
Qed.

(** X21: the durations that are safe integers are the exact ones: for a
    magnitude [n >= 0] read by [parseInt], [getMilliseconds] returns a
    number [ms] up to [2^53 - 1] exactly when [n * unit] is up to
    [2^53 - 1], and [ms] is then [n * unit]; past that bound every result
    is beyond the safe integers, rounded or not. *)
Theorem getMilliseconds_safe_iff (value unit : string) (n ms : Z) :
  Js.parseInt value = Js.Int n -> 0 <= n ->
  (getMilliseconds value unit = Js.Int ms /\ ms <= max_safe_integer
   <-> ms = n * unit_milliseconds unit /\
       n * unit_milliseconds unit <= max_safe_integer).
Proof.
  intros Hp Hn. split.
  - intros [H Hms].
    pose proof (getMilliseconds_safe_inv value unit n ms Hp Hn H Hms). lia.
  - intros [-> Hsafe]. split; [|assumption].
    apply getMilliseconds_exact; [assumption|]. now rewrite Z.abs_eq.
Qed.

Lemma getMilliseconds_safe_iff_witness :
  getMilliseconds "2" "minutes" = Js.Int 120000 /\ 120000 <= max_safe_integer.
Proof.
  apply (proj2 (getMilliseconds_safe_iff "2" "minutes" 2 120000 eq_refl ltac:(lia))).
  split; [reflexivity | vm_compute; discriminate].
Defined.

(** An unrecognised unit tag is converted as seconds. *)
Lemma getMilliseconds_other_unit (value unit : string) :
  unit <> "seconds" -> unit <> "minutes" -> unit <> "hours" ->
  getMilliseconds value unit = getMilliseconds value "seconds".
Proof.
  intros Hs Hm Hh. unfold getMilliseconds.
  apply String.eqb_neq in Hs, Hm, Hh. rewrite Hs, Hm, Hh. reflexivity.
Qed.

(** C7, within the doubles: for every positive integer [n], [getMilliseconds]
    applied to [n] (written as the decimal string the input field holds)
    gives [n * 1000] for ['seconds'], [n * 60000] for ['minutes'] and
    [n * 3600000] for ['hours'], each as long as that product is at most
    [2^53 - 1]. *)
Theorem getMilliseconds_conversion (n : Z) :
  0 < n ->
  (n * 1000 <= max_safe_integer ->
   getMilliseconds (decimal_numeral n) "seconds" = Js.Int (n * 1000)) /\
  (n * 60000 <= max_safe_integer ->
   getMilliseconds (decimal_numeral n) "minutes" = Js.Int (n * 60000)) /\
  (n * 3600000 <= max_safe_integer ->
   getMilliseconds (decimal_numeral n) "hours" = Js.Int (n * 3600000)).
Proof.
  intros Hn.
  assert (G : forall unit, n * unit_milliseconds unit <= max_safe_integer ->
            getMilliseconds (decimal_numeral n) unit
            = Js.Int (n * unit_milliseconds unit)).
  { intros unit H. pose proof (unit_milliseconds_pos unit).
    apply getMilliseconds_exact; [apply parseInt_decimal_numeral; nia|].
    now rewrite Z.abs_eq by lia. }
  split; [exact (G "seconds") | split; [exact (G "minutes") | exact (G "hours")]].
Qed.

Lemma getMilliseconds_conversion_witness :
  getMilliseconds "2" "seconds" = Js.Int 2000 /\
  getMilliseconds "2" "minutes" = Js.Int 120000 /\
  getMilliseconds "2" "hours" = Js.Int 7200000.
Proof.
  split; [|split].
  - apply (proj1 (getMilliseconds_conversion 2 ltac:(lia))).
    vm_compute. discriminate.
  - apply (proj1 (proj2 (getMilliseconds_conversion 2 ltac:(lia)))).
    vm_compute. discriminate.
  - apply (proj2 (proj2 (getMilliseconds_conversion 2 ltac:(lia)))).
    vm_compute. discriminate.
Defined.

(** C7, as stated, fails: the numeral of [2^53 + 1] is read as the double
    [2^53], so that its seconds are not [n * 1000]; and the hours of
    5162117475185141 are rounded at the second product by 60 and at the
    product by 1000. *)
Lemma getMilliseconds_conversion_rounds :
  0 < 9007199254740993 /\
  getMilliseconds (decimal_numeral 9007199254740993) "seconds"
    = Js.Int 9007199254740992000 /\
  getMilliseconds (decimal_numeral 9007199254740993) "seconds"
    <> Js.Int (9007199254740993 * 1000) /\
  getMilliseconds (decimal_numeral 5162117475185141) "hours"
    = Js.Int 18583622910666510172160 /\
  getMilliseconds (decimal_numeral 5162117475185141) "hours"
    <> Js.Int (5162117475185141 * 3600000).
Proof.
  split; [lia|]. split; [vm_compute; reflexivity|].
  split; [vm_compute; discriminate|].
  split; [vm_compute; reflexivity|]. vm_compute; discriminate.
Qed.

(** ** The three ways through [scheduleReminder] *)

Lemma truthy_false (s : string) : Js.truthy s = false <-> s = "".
Proof. destruct s; cbn; split; congruence. Qed.

Lemma truthy_true (s : string) : Js.truthy s = true <-> s <> "".
Proof. destruct s; cbn; split; congruence. Qed.

Lemma parseable_nonempty (s : string) :
  parseable_as_positive_integer s -> s <> "".
Proof. intros (n & _ & Hn) ->. discriminate Hn. Qed.

Lemma scheduleReminder_missing_input (now : Z) (st : App) :
  reminderText st = "" \/ timeValue st = "" ->
  scheduleReminder now st = Return (showToast missing_input_message st).
Proof.
  intros H. unfold scheduleReminder.
  destruct H as [H|H]; apply truthy_false in H; rewrite H;
    [reflexivity | now rewrite orb_true_r].
Qed.

Lemma scheduleReminder_invalid_number (now : Z) (st : App) :
  reminderText st <> "" -> timeValue st <> "" ->
  ~ parseable_as_positive_integer (timeValue st) ->
  scheduleReminder now st = Return (showToast invalid_number_message st).
Proof.
  intros Ht Hv Hn. unfold scheduleReminder.
  apply truthy_true in Ht, Hv. rewrite Ht, Hv. cbn [negb orb].
  destruct (Js.parseInt (timeValue st)) as [|n] eqn:Hp; [reflexivity|].
  cbn [Js.isNaN Js.le orb].
  destruct (Z.leb_spec n 0) as [|Hpos]; [reflexivity|].
  exfalso. apply Hn. now exists n.
Qed.

(** Past validation the gateway is called, with the date of [now] plus the
    duration. *)
Lemma scheduleReminder_validated (now : Z) (st : App) (n : Z) :
  reminderText st <> "" -> Js.parseInt (timeValue st) = Js.Int n -> 0 < n ->
  scheduleReminder now st =
    Await st
      (scheduleNotificationAsync
         (mkRequest (mkContent "Reminder!" (reminderText st) true)
            (Js.newDate (Js.add now (getMilliseconds (timeValue st) (timeUnit st))))))
      (scheduleReminder_resume st (Js.Int n)
         (Js.newDate (Js.add now (getMilliseconds (timeValue st) (timeUnit st))))).
Proof.
  intros Ht Hp Hn. unfold scheduleReminder.
  assert (Hv : timeValue st <> "") by (intros E; rewrite E in Hp; discriminate Hp).
  apply truthy_true in Ht, Hv. rewrite Ht, Hv. cbn [negb orb].
  rewrite Hp. cbn [Js.isNaN Js.le orb].
  destruct (Z.leb_spec n 0); [lia | reflexivity].
Qed.

(** Every run falls in one of the three cases. *)
Lemma scheduleReminder_cases (now : Z) (st : App) :
  scheduleReminder now st = Return (showToast missing_input_message st) \/
  scheduleReminder now st = Return (showToast invalid_number_message st) \/
  exists n : Z, reminderText st <> "" /\ 0 < n /\
    Js.parseInt (timeValue st) = Js.Int n.
Proof.
  destruct (decide (reminderText st = "")) as [Ht|Ht];
    [left; apply scheduleReminder_missing_input; auto|].
  destruct (decide (timeValue st = "")) as [Hv|Hv];
    [left; apply scheduleReminder_missing_input; auto|].
  right.
  destruct (Js.parseInt (timeValue st)) as [|n] eqn:Hp.
  - left. apply scheduleReminder_invalid_number; trivial.
    intros (m & _ & Hm). congruence.
  - destruct (Z.leb_spec n 0) as [Hle|Hpos]; [left | right; now exists n].
    apply scheduleReminder_invalid_number; trivial.
    intros (m & Hm & Hm'). rewrite Hp in Hm'. injection Hm' as ->. lia.
Qed.

(** What reaches the gateway was validated. *)
Lemma scheduleReminder_await_inv (now : Z) (st st' : App) call resume :
  scheduleReminder now st = Await st' call resume ->
  exists n : Z, reminderText st <> "" /\ 0 < n /\
    Js.parseInt (timeValue st) = Js.Int n.
Proof.
  intros H.
  destruct (scheduleReminder_cases now st) as [E|[E|E]];
    [rewrite E in H; discriminate H .. | exact E].
Qed.

(** The numerals of zero and of the negative integers are rejected. *)
Lemma scheduleReminder_rejects_nonpositive (now n : Z) (st : App) :
  reminderText st <> "" -> n <= 0 -> timeValue st = decimal_numeral n ->
  scheduleReminder now st = Return (showToast invalid_number_message st).
Proof.
  intros Ht Hn Hv. apply scheduleReminder_invalid_number; trivial.
  - rewrite Hv. intros E. apply (f_equal Js.parseInt) in E.
    rewrite parseInt_decimal_numeral_round in E. discriminate E.
  - intros (m & Hm & Hp). rewrite Hv, parseInt_decimal_numeral_round in Hp.
    injection Hp as Hp. apply round_nonpos in Hn. lia.
Qed.

(** So is what starts like no number. *)
Lemma scheduleReminder_rejects_not_a_number (now : Z) (st : App)
    (c : ascii) (rest : string) :
  reminderText st <> "" -> timeValue st = String c rest ->
  Js.is_white_space c = false -> c <> "-"%char -> c <> "+"%char ->
  Js.radix_digit 10 c = None ->
  scheduleReminder now st = Return (showToast invalid_number_message st).
Proof.
  intros Ht Hv Hw Hm Hp Hd. apply scheduleReminder_invalid_number; trivial.
  - rewrite Hv. discriminate.
  - intros (m & _ & E). rewrite Hv, parseInt_not_a_number in E by assumption.
    discriminate E.
Qed.

(** C3: validation comes before any gateway call or change of the store
    and the first failure wins.  An empty label or an empty magnitude
    string ends the run with the "missing input" message; otherwise a
    magnitude string that does not parse as a positive integer ends it
    with the "invalid number" message: the numeral of an integer that is
    not positive, a string that starts like no number, "0", "-3" and "abc"
    in particular.  The two messages differ, and a run that ends in
    validation has called no gateway and left the store as it was. *)
Theorem scheduleReminder_validation (now : Z) (st : App) :
  (reminderText st = "" \/ timeValue st = "" ->
   scheduleReminder now st = Return (showToast missing_input_message st)) /\
  (reminderText st <> "" -> timeValue st <> "" ->
   ~ parseable_as_positive_integer (timeValue st) ->
   scheduleReminder now st = Return (showToast invalid_number_message st)) /\
  (forall n : Z,
     reminderText st <> "" -> n <= 0 -> timeValue st = decimal_numeral n ->
     scheduleReminder now st = Return (showToast invalid_number_message st)) /\
  (forall (c : ascii) (rest : string),
     reminderText st <> "" -> timeValue st = String c rest ->
     Js.is_white_space c = false -> c <> "-"%char -> c <> "+"%char ->
     Js.radix_digit 10 c = None ->
     scheduleReminder now st = Return (showToast invalid_number_message st)) /\
  (reminderText st <> "" ->
   timeValue st = "0" \/ timeValue st = "-3" \/ timeValue st = "abc" ->
   scheduleReminder now st = Return (showToast invalid_number_message st)) /\
  (forall st', scheduleReminder now st = Return st' ->
     reminders st' = reminders st /\
     (toastMessage st' = missing_input_message \/
      toastMessage st' = invalid_number_message)) /\
  missing_input_message <> invalid_number_message.
Proof.
  split; [apply scheduleReminder_missing_input|].
  split; [apply scheduleReminder_invalid_number|].
  split; [intros n; apply scheduleReminder_rejects_nonpositive|].
  split; [intros c rest; apply scheduleReminder_rejects_not_a_number|].
  split.
  { intros Ht [Hv|[Hv|Hv]].
    - now apply (scheduleReminder_rejects_nonpositive now 0).
    - now apply (scheduleReminder_rejects_nonpositive now (-3)).
    - now apply (scheduleReminder_rejects_not_a_number now st "a" "bc"). }
  split; [|discriminate].
  intros st' H.
  destruct (scheduleReminder_cases now st) as [E|[E|(n & Ht & Hn & Hp)]].
  - rewrite E in H. injection H as <-. auto.
  - rewrite E in H. injection H as <-. auto.
  - rewrite (scheduleReminder_validated now st n) in H by trivial.
    discriminate H.
Qed.

Lemma scheduleReminder_validation_witness :
  scheduleReminder 0 (initial "active")
    = Return (showToast missing_input_message (initial "active")) /\
  scheduleReminder 0 (setTimeValue "abc" typed_call_mom)
    = Return (showToast invalid_number_message (setTimeValue "abc" typed_call_mom)) /\
  scheduleReminder 0 (setTimeValue "-3" typed_call_mom)
    = Return (showToast invalid_number_message (setTimeValue "-3" typed_call_mom)) /\
  scheduleReminder 0 (setTimeValue "0" typed_call_mom)
    = Return (showToast invalid_number_message (setTimeValue "0" typed_call_mom)) /\
  scheduleReminder 0 (setTimeValue "?" typed_call_mom)
    = Return (showToast invalid_number_message (setTimeValue "?" typed_call_mom)).
Proof.
  split; [|split; [|split; [|split]]].
  - apply (proj1 (scheduleReminder_validation 0 (initial "active"))).
    left. reflexivity.
  - apply (proj1 (proj2
      (scheduleReminder_validation 0 (setTimeValue "abc" typed_call_mom)))).
    + discriminate.
    + discriminate.
    + intros (n & Hn & Hp). vm_compute in Hp. discriminate Hp.
  - apply (proj1 (proj2 (proj2 (proj2 (proj2
      (scheduleReminder_validation 0 (setTimeValue "-3" typed_call_mom))))))).
    + discriminate.
    + right. left. reflexivity.
  - apply (proj1 (proj2 (proj2
      (scheduleReminder_validation 0 (setTimeValue "0" typed_call_mom)))) 0).
    + discriminate.
    + lia.
    + reflexivity.
  - apply (proj1 (proj2 (proj2 (proj2
      (scheduleReminder_validation 0 (setTimeValue "?" typed_call_mom))))) "?"%char "").
    + discriminate.
    + reflexivity.
    + reflexivity.
    + discriminate.
    + discriminate.
    + reflexivity.
Defined.

(** ** The date asked of the gateway *)

Lemma getMilliseconds_Int (value unit : string) (n : Z) :
  Js.parseInt value = Js.Int n -> 0 < n ->
  exists ms, getMilliseconds value unit = Js.Int ms /\ 0 < ms.
Proof.
  unfold getMilliseconds. intros -> Hn. cbn [Js.mul].
  assert (P : forall z k, 0 < z -> 0 < k -> 0 < Js.round (z * k))
    by (intros z k Hz Hk; apply round_pos; nia).
  destruct (String.eqb unit "seconds"); [eexists; split; [reflexivity|]; now apply P|].
  destruct (String.eqb unit "minutes");
    [eexists; split; [reflexivity|]; apply P; [apply P|]; lia|].
  destruct (String.eqb unit "hours");
    eexists; (split; [reflexivity|]); repeat (apply P; try lia).
Qed.

(** From a clock reading after 1970, a fire time that a [Date] holds is
    computed exactly: no product and no sum is rounded. *)
Lemma trigger_in_range (now : Z) (value unit : string) (n : Z) :
  Js.parseInt value = Js.Int n -> 0 < n -> 0 <= now ->
  now + n * unit_milliseconds unit <= max_time_value ->
  getMilliseconds value unit = Js.Int (n * unit_milliseconds unit) /\
  Js.newDate (Js.add now (getMilliseconds value unit))
  = Js.Int (now + n * unit_milliseconds unit).
Proof.
  intros Hp Hn Hnow Hmax. pose proof (unit_milliseconds_pos unit) as Hu.
  assert (E : getMilliseconds value unit = Js.Int (n * unit_milliseconds unit)).
  { apply getMilliseconds_exact; trivial.
    unfold max_time_value in Hmax. unfold max_safe_integer. nia. }
  split; [exact E|]. rewrite E. cbn [Js.add Js.newDate].
  rewrite round_exact by (unfold max_time_value in Hmax; unfold max_safe_integer; nia).
  destruct (Z.leb_spec (Z.abs (now + n * unit_milliseconds unit)) max_time_value);
    [reflexivity | nia].
Qed.

(** A fire time past the largest time value gives an invalid date, whether
    the arithmetic rounds or not. *)
Lemma trigger_out_of_range (now : Z) (value unit : string) (n : Z) :
  Js.parseInt value = Js.Int n -> 0 < n -> 0 <= now ->
  max_time_value < now + n * unit_milliseconds unit ->
  Js.newDate (Js.add now (getMilliseconds value unit)) = Js.NaN.
Proof.
  intros Hp Hn Hnow Hmax.
  destruct (getMilliseconds_Int value unit n Hp Hn) as (ms & E & Hms).
  rewrite E. cbn [Js.add Js.newDate].
  assert (H : max_time_value < Js.round (now + ms)).
  { destruct (Z.le_gt_cases (now + ms) max_safe_integer) as [Hle|Hgt].
    - rewrite round_exact by lia.
      assert (Hms' : ms = n * unit_milliseconds unit)
        by (apply (getMilliseconds_safe_inv value); trivial; lia).
      lia.
    - apply round_large in Hgt. unfold max_safe_integer in Hgt.
      unfold max_time_value. lia. }
  destruct (Z.leb_spec (Z.abs (Js.round (now + ms))) max_time_value);
    [lia | reflexivity].
Qed.

(** So a valid date asked of the gateway is the exact fire time. *)
Lemma trigger_valid_inv (now : Z) (value unit : string) (n t : Z) :
  Js.parseInt value = Js.Int n -> 0 < n -> 0 <= now ->
  Js.newDate (Js.add now (getMilliseconds value unit)) = Js.Int t ->
  t = now + n * unit_milliseconds unit /\ t <= max_time_value.
Proof.
  intros Hp Hn Hnow H.
  destruct (Z.le_gt_cases (now + n * unit_milliseconds unit) max_time_value)
    as [Hle|Hgt].
  - destruct (trigger_in_range now value unit n Hp Hn Hnow Hle) as [_ E].
    rewrite E in H. injection H as <-. now split.
  - rewrite (trigger_out_of_range now value unit n) in H by assumption.
    discriminate H.
Qed.

(** A date is invalid or a time value. *)
Lemma newDate_cases (x : Js.number) :
  Js.newDate x = Js.NaN \/ exists t, Js.newDate x = Js.Int t.
Proof.
  destruct x as [|z]; cbn [Js.newDate]; [now left|].
  destruct (Z.abs z <=? max_time_value); eauto.
Qed.

(** ** Scheduling and the gateway *)

Lemma scheduleReminder_resume_resolved (st : App) (numValue : Js.number) (t : Z)
    (id : string) (cur : App) :
  exists after,
    scheduleReminder_resume st numValue (Js.Int t) (Resolved id) cur = Fulfilled after /\
    reminders after =
      (reminders cur ++
       [Reminder.mk id (reminderText st) numValue (timeUnit st) (Js.Int t)])%list /\
    reminderText after = "" /\ timeValue after = "" /\
    timeUnit after = timeUnit cur /\
    toastMessage after = scheduled_message /\ toastVisible after = true.
Proof. eexists. split; [reflexivity|]. cbn. auto 7. Qed.

Lemma scheduleReminder_resume_invalid (st : App) (numValue : Js.number)
    (id : string) (cur : App) :
  scheduleReminder_resume st numValue Js.NaN (Resolved id) cur
  = Crashed "RangeError" cur.
Proof. reflexivity. Qed.

Lemma scheduleReminder_resume_rejected (st : App) (numValue trigger : Js.number)
    (error : string) (cur : App) :
  scheduleReminder_resume st numValue trigger (Rejected error) cur =
    Fulfilled (showToast scheduling_failed_message cur).
Proof. reflexivity. Qed.

Lemma app_singleton_neq {A : Type} (l : list A) (x : A) : (l ++ [x])%list <> l.
Proof.
  intros H. apply (f_equal length) in H. rewrite length_app in H.
  cbn in H. lia.
Qed.

(** C1, where the code departs from it: nothing bounds the magnitude from
    above.  For validated input whose fire time, from a clock reading
    after 1970, is past the largest time value of a [Date], the run still
    reaches the gateway call; when that call resolves, whatever the state
    [cur] by then, the component crashes on the [RangeError] of
    [toISOString] and the store holds what it held: the gateway has
    scheduled a notification and no reminder was inserted. *)
Theorem scheduleReminder_resolved_without_insertion (now : Z) (st : App) (n : Z) :
  reminderText st <> "" -> Js.parseInt (timeValue st) = Js.Int n -> 0 < n ->
  0 <= now -> max_time_value < now + n * unit_milliseconds (timeUnit st) ->
  exists request resume,
    scheduleReminder now st = Await st (scheduleNotificationAsync request) resume /\
    forall (id : string) (cur : App),
      resume (Resolved id) cur = Crashed "RangeError" cur /\
      reminders (final (resume (Resolved id) cur)) = reminders cur /\
      ~ (exists r, reminders (final (resume (Resolved id) cur))
                   = (reminders cur ++ [r])%list).
Proof.
  intros Ht Hp Hn Hnow Hmax. do 2 eexists.
  split; [now apply (scheduleReminder_validated now st n)|].
  intros id cur.
  rewrite (trigger_out_of_range now _ _ n) by assumption.
  rewrite scheduleReminder_resume_invalid. cbn [final].
  split; [reflexivity|]. split; [reflexivity|].
  intros [r Hr]. symmetry in Hr. now apply app_singleton_neq in Hr.
Qed.

Lemma scheduleReminder_resolved_without_insertion_witness :
  exists request resume,
    scheduleReminder 1700000000000 typed_far_future
      = Await typed_far_future (scheduleNotificationAsync request) resume /\
    forall (id : string) (cur : App),
      resume (Resolved id) cur = Crashed "RangeError" cur /\
      reminders (final (resume (Resolved id) cur)) = reminders cur /\
      ~ (exists r, reminders (final (resume (Resolved id) cur))
                   = (reminders cur ++ [r])%list).
Proof.
  apply (scheduleReminder_resolved_without_insertion
           1700000000000 typed_far_future 2400000001).
  - discriminate.
  - reflexivity.
  - lia.
  - lia.
  - vm_compute. reflexivity.
Defined.

(** X18: for every run of [scheduleReminder] that reaches the gateway call
    (nothing was changed before it; the call is the schedule call, for the
    label typed), whatever the state [cur] when the call settles: if it
    resolved and the date asked for is valid, exactly one reminder is
    appended, with the id answered and that fire time, and "Reminder set
    successfully" is shown; if it resolved and the date is invalid the
    component crashes; if it was rejected, "Error setting reminder" is
    shown and the store is as it was.  So a reminder is inserted if and
    only if the call resolved and the date asked for was valid. *)
Theorem scheduleReminder_insertion (now : Z) (st st' : App) (call : GatewayCall)
    (resume : Settled string -> App -> Completion) :
  scheduleReminder now st = Await st' call resume ->
  st' = st /\
  exists request,
    call = scheduleNotificationAsync request /\
    content request = mkContent "Reminder!" (reminderText st) true /\
    (forall (t : Z) (id : string) (cur : App),
       trigger request = Js.Int t ->
       exists r, Reminder.id r = id /\ Reminder.scheduledFor r = Js.Int t /\
         reminders (final (resume (Resolved id) cur)) = (reminders cur ++ [r])%list /\
         toastMessage (final (resume (Resolved id) cur)) = scheduled_message) /\
    (trigger request = Js.NaN ->
     forall (id : string) (cur : App),
       resume (Resolved id) cur = Crashed "RangeError" cur) /\
    (forall (error : string) (cur : App),
       resume (Rejected error) cur
       = Fulfilled (showToast scheduling_failed_message cur)) /\
    (forall (answer : Settled string) (cur : App),
       (exists r, reminders (final (resume answer cur)) = (reminders cur ++ [r])%list)
       <-> (exists id, answer = Resolved id) /\ (exists t, trigger request = Js.Int t)).
Proof.
  intros H.
  destruct (scheduleReminder_await_inv _ _ _ _ _ H) as (n & Ht & Hn & Hp).
  rewrite (scheduleReminder_validated now st n) in H by trivial.
  injection H as <- <- <-.
  split; [reflexivity|]. eexists. split; [reflexivity|].
  cbn [content trigger]. split; [reflexivity|].
  set (date := Js.newDate _).
  split.
  { intros t id cur ->. eexists.
    split; [|split; [|split; reflexivity]]; reflexivity. }
  split.
  { intros -> id cur. reflexivity. }
  split; [reflexivity|].
  intros [id|error] cur; split.
  - intros [r Hr]. split; [eauto|].
    destruct date as [|t]; [|eauto].
    cbn in Hr. symmetry in Hr. now apply app_singleton_neq in Hr.
  - intros [_ [t ->]]. eexists. reflexivity.
  - intros [r Hr]. cbn in Hr. symmetry in Hr. now apply app_singleton_neq in Hr.
  - intros [[id Hid] _]. discriminate Hid.
Qed.

Lemma scheduleReminder_insertion_witness :
  reminders (final (scheduleReminder_resume typed_call_mom (Js.Int 2) (Js.Int 120000)
                      (Rejected "E_FAILED") three_pending))
  = reminders three_pending.
Proof.
  destruct (scheduleReminder_insertion 0 typed_call_mom typed_call_mom
           (scheduleNotificationAsync
              (mkRequest (mkContent "Reminder!" "Call mom" true) (Js.Int 120000)))
           (scheduleReminder_resume typed_call_mom (Js.Int 2) (Js.Int 120000))
           eq_refl) as (_ & request & _ & _ & _ & _ & H & _).
  now rewrite (H "E_FAILED" three_pending).
Defined.

(** ** The two compactions on the list *)

Lemma cleanupExpiredReminders_reminders (now : Z) (st : App) :
  reminders (cleanupExpiredReminders now st) =
    filter (fun r => Is_true (Js.gt (Reminder.scheduledFor r) now)) (reminders st).
Proof. reflexivity. Qed.

Lemma cleanupReminder_reminders (id : string) (st : App) :
  reminders (cleanupReminder id st) =
    filter (fun r => Reminder.id r <> id) (reminders st).
Proof. reflexivity. Qed.

Lemma gt_spec (x : Js.number) (now : Z) :
  Is_true (Js.gt x now) <-> exists t, x = Js.Int t /\ now < t.
Proof.
  destruct x as [|t]; cbn.
  - split; [tauto | intros (t & Ht & _); discriminate Ht].
  - rewrite Is_true_true, Z.ltb_lt. split.
    + eauto.
    + now intros (t' & [= ->] & Ht').
Qed.

Section Filter.
Context {A : Type} (P : A -> Prop) `{!forall x, Decision (P x)}.

Lemma filter_all (l : list A) : Forall P l -> filter P l = l.
Proof.
  induction 1 as [|x l Hx _ IH]; [reflexivity|].
  now rewrite filter_cons_True, IH.
Qed.

Lemma filter_idempotent (l : list A) : filter P (filter P l) = filter P l.
Proof.
  apply filter_all, Forall_forall. intros x Hx.
  now apply list_elem_of_filter in Hx.
Qed.
End Filter.

(** C4: at every instant [now] and on every state, the compaction leaves
    in the store exactly the reminders whose fire time is strictly after
    [now] (in their order, and nothing else of the state changes); a store
    with fire times [now - 5s], [now + 5s], [now + 1h] becomes the store of
    the last two. *)
Theorem cleanupExpiredReminders_compacts (now : Z) (st : App) :
  let after := cleanupExpiredReminders now st in
  (forall r, r ∈ reminders after <-> r ∈ reminders st /\ pending now r) /\
  reminders after `sublist_of` reminders st /\
  after = setReminders (fun _ => reminders after) st /\
  (forall a b c : Reminder.t,
     Reminder.scheduledFor a = Js.Int (now - 5000) ->
     Reminder.scheduledFor b = Js.Int (now + 5000) ->
     Reminder.scheduledFor c = Js.Int (now + 3600000) ->
     reminders st = [a; b; c] -> reminders after = [b; c]).
Proof.
  intros after. subst after. rewrite cleanupExpiredReminders_reminders.
  split.
  { intros r. rewrite list_elem_of_filter, gt_spec. unfold pending. tauto. }
  split; [apply sublist_filter|].
  split; [reflexivity|].
  intros a b c Ha Hb Hc ->.
  rewrite filter_cons_False, filter_cons_True, filter_cons_True; trivial;
    rewrite gt_spec; [exists (now + 3600000) | exists (now + 5000) |];
    try (split; [assumption | lia]).
  intros (t & Ht & Hlt). rewrite Ha in Ht. injection Ht as <-. lia.
Qed.

Lemma cleanupExpiredReminders_compacts_witness :
  reminders (cleanupExpiredReminders 125000 three_pending)
  = [water_plants; walk_dog].
Proof.
  apply (proj2 (proj2 (proj2
    (cleanupExpiredReminders_compacts 125000 three_pending)))
    call_mom water_plants walk_dog); reflexivity.
Defined.

(** C5: removing an id twice gives the same state as removing it once, and
    removing an id the store does not hold changes nothing; the removal is
    a total function, there is no error case. *)
Theorem cleanupReminder_idempotent (id : string) (st : App) :
  cleanupReminder id (cleanupReminder id st) = cleanupReminder id st /\
  (id ∉ ids st -> cleanupReminder id st = st).
Proof.
  split.
  - unfold cleanupReminder, setReminders. cbn. f_equal.
    apply filter_idempotent.
  - intros Hid. destruct st as [t v u l tv tm a]. unfold ids in Hid. cbn in Hid.
    unfold cleanupReminder, setReminders. cbn. f_equal.
    apply filter_all, Forall_forall. intros r Hr <-.
    apply Hid, list_elem_of_fmap. eauto.
Qed.

Lemma cleanupReminder_idempotent_witness :
  cleanupReminder "n7" three_pending = three_pending.
Proof.
  apply (proj2 (cleanupReminder_idempotent "n7" three_pending)).
  vm_compute. intros H. repeat (apply elem_of_cons in H as [H|H]; [discriminate H|]).
  now apply elem_of_nil in H.
Defined.

(** C10: removal by id keeps every record whose id differs from the
    removed one, and compaction keeps every record whose fire time is
    strictly after [now]: the result is a sublist of the store (the same
    records, in their order) and, for every property [Q] that only
    survivors have, the records with [Q] are the same list before and
    after.  Scheduling only appends, and cancellation only removes: no
    operation changes a record that stays. *)
Theorem compaction_frame :
  (forall (st : App) (id : string),
     let after := reminders (cleanupReminder id st) in
     after `sublist_of` reminders st /\
     (forall r, r ∈ reminders st -> Reminder.id r <> id -> r ∈ after) /\
     (forall (Q : Reminder.t -> Prop) `(!forall r, Decision (Q r)),
        (forall r, Q r -> Reminder.id r <> id) ->
        filter Q after = filter Q (reminders st))) /\
  (forall (st : App) (now : Z),
     let after := reminders (cleanupExpiredReminders now st) in
     after `sublist_of` reminders st /\
     (forall r, r ∈ reminders st -> pending now r -> r ∈ after) /\
     (forall (Q : Reminder.t -> Prop) `(!forall r, Decision (Q r)),
        (forall r, Q r -> pending now r) ->
        filter Q after = filter Q (reminders st))) /\
  (forall (st : App) (numValue trigger : Js.number) (answer : Settled string)
          (cur : App),
     reminders cur `prefix_of`
       reminders (final (scheduleReminder_resume st numValue trigger answer cur))) /\
  (forall (id : string) (answer : Settled unit) (cur : App),
     reminders (final (cancelReminder_resume id answer cur))
       `sublist_of` reminders cur).
Proof.
  split; [|split; [|split]].
  - intros st id after. subst after. rewrite cleanupReminder_reminders.
    split; [apply sublist_filter|]. split.
    + intros r Hr Hid. now apply list_elem_of_filter.
    + intros Q HQ Himp. now apply list_filter_filter_l.
  - intros st now after. subst after. rewrite cleanupExpiredReminders_reminders.
    split; [apply sublist_filter|]. split.
    + intros r Hr Hp. apply list_elem_of_filter. split; [now apply gt_spec|trivial].
    + intros Q HQ Himp. apply list_filter_filter_l.
      intros r Hr. apply gt_spec. exact (Himp r Hr).
  - intros st numValue [|t] [id|error] cur; cbn; try reflexivity.
    now eexists.
  - intros id [[]|error] cur; cbn; [apply sublist_filter | reflexivity].
Qed.

Lemma compaction_frame_witness :
  walk_dog ∈ reminders (cleanupReminder "n1" three_pending) /\
  walk_dog ∈ reminders (cleanupExpiredReminders 125000 three_pending).
Proof.
  split.
  - apply (proj1 compaction_frame three_pending "n1").
    + vm_compute. do 2 apply list_elem_of_further. apply list_elem_of_here.
    + discriminate.
  - apply (proj1 (proj2 compaction_frame) three_pending 125000).
    + vm_compute. do 2 apply list_elem_of_further. apply list_elem_of_here.
    + exists 3725000. split; [reflexivity | lia].
Defined.

(** X7: a delivery event and a sweep resolve the state to the same one in
    either order. *)
Lemma cleanupReminder_cleanupExpiredReminders_comm (id : string) (now : Z) (st : App) :
  cleanupReminder id (cleanupExpiredReminders now st)
  = cleanupExpiredReminders now (cleanupReminder id st).
Proof.
  unfold cleanupReminder, cleanupExpiredReminders, setReminders. cbn. f_equal.
  rewrite !list_filter_filter. apply list_filter_iff. tauto.
Qed.

(** The triggers only ever remove: after any sequence of them the store is
    a sublist of what it was. *)
Lemma fire_sublist (t : Trigger) (st : App) :
  reminders (fire t st) `sublist_of` reminders st.
Proof.
  destruct t as [identifier|now next|now]; cbn [fire].
  - apply sublist_filter.
  - unfold setupAppStateHandler.
    destruct (matches_inactive_or_background (appState st) && String.eqb next "active");
      [apply sublist_filter | reflexivity].
  - apply sublist_filter.
Qed.

(** X8: the two listeners and the interval only ever remove: after any
    sequence of received notifications, app-state changes and interval
    ticks the store is a sublist of what it was (no reminder added,
    changed or moved). *)
Lemma fire_all_sublist (ts : list Trigger) (st : App) :
  reminders (foldl (fun st t => fire t st) st ts) `sublist_of` reminders st.
Proof.
  revert st. induction ts as [|t ts IH]; intros st; cbn [foldl]; [reflexivity|].
  etransitivity; [apply IH | apply fire_sublist].
Qed.

(** ** The fire time *)

(** C6, where the code departs from it: nothing bounds the magnitude from
    above.  For validated input whose fire time, from a clock reading
    after 1970, is past the largest time value of a [Date], the run
    reaches the gateway call, but the date it asks for is an invalid one,
    not [now] plus the duration; and when the call resolves no reminder
    with that fire time is recorded: the component crashes in the state it
    was in. *)
Theorem scheduleReminder_invalid_fire_time (now : Z) (st : App) (n : Z) :
  reminderText st <> "" -> Js.parseInt (timeValue st) = Js.Int n -> 0 < n ->
  0 <= now -> max_time_value < now + n * unit_milliseconds (timeUnit st) ->
  exists (ms : Z) (request : NotificationRequest) resume,
    getMilliseconds (timeValue st) (timeUnit st) = Js.Int ms /\ 0 < ms /\
    scheduleReminder now st = Await st (scheduleNotificationAsync request) resume /\
    trigger request = Js.NaN /\
    trigger request <> Js.add now (getMilliseconds (timeValue st) (timeUnit st)) /\
    forall (id : string) (cur : App), final (resume (Resolved id) cur) = cur.
Proof.
  intros Ht Hp Hn Hnow Hmax.
  destruct (getMilliseconds_Int (timeValue st) (timeUnit st) n Hp Hn)
    as (ms & E & Hms).
  exists ms. do 2 eexists. split; [exact E|]. split; [exact Hms|].
  split; [now apply (scheduleReminder_validated now st n)|].
  cbn [trigger]. rewrite (trigger_out_of_range now _ _ n) by assumption.
  split; [reflexivity|]. split; [rewrite E; discriminate|].
  reflexivity.
Qed.

Lemma scheduleReminder_invalid_fire_time_witness :
  exists (ms : Z) (request : NotificationRequest) resume,
    getMilliseconds "2400000001" "hours" = Js.Int ms /\ 0 < ms /\
    scheduleReminder 1700000000000 typed_far_future
      = Await typed_far_future (scheduleNotificationAsync request) resume /\
    trigger request = Js.NaN /\
    trigger request <> Js.add 1700000000000 (getMilliseconds "2400000001" "hours") /\
    forall (id : string) (cur : App), final (resume (Resolved id) cur) = cur.
Proof.
  apply (scheduleReminder_invalid_fire_time
           1700000000000 typed_far_future 2400000001).
  - discriminate.
  - reflexivity.
  - lia.
  - lia.
  - vm_compute. reflexivity.
Defined.

(** X19: for validated input whose fire time, from a clock reading after
    1970, is a time value of a [Date], the duration is the magnitude times
    the unit, the gateway is asked for the instant [now] plus that
    duration, and the reminder appended when the call resolves has that
    fire time, the magnitude read, and the label and unit of the press.
    Scheduling "Call mom" in "2" ['minutes'] at [t0], the call resolving,
    appends exactly one reminder, with fire time [t0 + 120000]; a
    compaction at any instant from that fire time on removes it, leaving
    an empty store if there was nothing else. *)
Theorem scheduleReminder_fire_time_in_range :
  (forall (now : Z) (st : App) (n : Z),
     reminderText st <> "" -> Js.parseInt (timeValue st) = Js.Int n -> 0 < n ->
     0 <= now -> now + n * unit_milliseconds (timeUnit st) <= max_time_value ->
     getMilliseconds (timeValue st) (timeUnit st)
       = Js.Int (n * unit_milliseconds (timeUnit st)) /\
     exists (request : NotificationRequest) resume,
       scheduleReminder now st = Await st (scheduleNotificationAsync request) resume /\
       trigger request = Js.Int (now + n * unit_milliseconds (timeUnit st)) /\
       forall (id : string) (cur : App),
         reminders (final (resume (Resolved id) cur))
         = (reminders cur ++
            [Reminder.mk id (reminderText st) (Js.Int n) (timeUnit st)
               (Js.Int (now + n * unit_milliseconds (timeUnit st)))])%list) /\
  (forall (t0 : Z) (st : App) (id : string),
     reminderText st = "Call mom" -> timeValue st = "2" -> timeUnit st = "minutes" ->
     0 <= t0 -> t0 + 120000 <= max_time_value ->
     let r := Reminder.mk id "Call mom" (Js.Int 2) "minutes" (Js.Int (t0 + 120000)) in
     let after := final (settle (scheduleReminder t0 st) (Resolved id)) in
     reminders after = (reminders st ++ [r])%list /\
     forall now : Z, t0 + 120000 <= now ->
       (r ∉ reminders (cleanupExpiredReminders now after)) /\
       (reminders st = [] -> reminders (cleanupExpiredReminders now after) = [])).
Proof.
  assert (G : forall (now : Z) (st : App) (n : Z),
     reminderText st <> "" -> Js.parseInt (timeValue st) = Js.Int n -> 0 < n ->
     0 <= now -> now + n * unit_milliseconds (timeUnit st) <= max_time_value ->
     forall (id : string) (cur : App),
       reminders (final (settle (scheduleReminder now st) (Resolved id)))
         = (reminders st ++
            [Reminder.mk id (reminderText st) (Js.Int n) (timeUnit st)
               (Js.Int (now + n * unit_milliseconds (timeUnit st)))])%list).
  { intros now st n Ht Hp Hn Hnow Hmax id cur.
    rewrite (scheduleReminder_validated now st n) by trivial. cbn [settle].
    destruct (trigger_in_range now _ _ n Hp Hn Hnow Hmax) as [_ ->]. reflexivity. }
  split.
  - intros now st n Ht Hp Hn Hnow Hmax.
    destruct (trigger_in_range now _ _ n Hp Hn Hnow Hmax) as [Hms Htr].
    split; [exact Hms|]. do 2 eexists.
    split; [now apply (scheduleReminder_validated now st n)|].
    cbn [trigger]. rewrite Htr. split; [reflexivity|].
    intros id cur. reflexivity.
  - intros t0 st id Ht Hv Hu Ht0 Hmax r after.
    assert (Hafter : reminders after = (reminders st ++ [r])%list).
    { subst after r. rewrite (G t0 st 2); trivial.
      - now rewrite Ht, Hu.
      - rewrite Ht. discriminate.
      - now rewrite Hv.
      - lia.
      - now rewrite Hu. }
    split; [assumption|].
    intros now Hnow.
    rewrite cleanupExpiredReminders_reminders, Hafter, filter_app.
    assert (Hr : filter (fun r => Is_true (Js.gt (Reminder.scheduledFor r) now)) [r] = []).
    { apply (filter_singleton_False _ r []).
      rewrite gt_spec. intros (t & [= <-] & Hlt). lia. }
    rewrite Hr, app_nil_r. split.
    + rewrite list_elem_of_filter, gt_spec.
      intros [(t & [= <-] & Hlt) _]. lia.
    + intros ->. reflexivity.
Qed.

Lemma scheduleReminder_fire_time_in_range_witness :
  reminders (final (settle (scheduleReminder 1000 typed_call_mom) (Resolved "n1")))
  = [Reminder.mk "n1" "Call mom" (Js.Int 2) "minutes" (Js.Int 121000)] /\
  reminders (cleanupExpiredReminders 121000
     (final (settle (scheduleReminder 1000 typed_call_mom) (Resolved "n1")))) = [].
Proof.
  split.
  - apply (proj2 scheduleReminder_fire_time_in_range 1000 typed_call_mom "n1");
      first [reflexivity | lia | (vm_compute; discriminate)].
  - apply (proj2 scheduleReminder_fire_time_in_range 1000 typed_call_mom "n1");
      first [reflexivity | lia | (vm_compute; discriminate)].
Defined.

(** X20: where the range of [Date] cuts: for a run that reaches the
    gateway call at a clock reading after 1970, with [n] the magnitude
    [parseInt] read, the date asked of the gateway is valid exactly when
    [now + n * unit] is at most the largest time value, 8.64e15; it is
    then that instant, and the duration is [n * unit], with nothing
    rounded; otherwise it is an invalid date. *)
Theorem scheduleReminder_trigger_valid_iff (now : Z) (st st' : App)
    (request : NotificationRequest)
    (resume : Settled string -> App -> Completion) (n : Z) :
  scheduleReminder now st = Await st' (scheduleNotificationAsync request) resume ->
  Js.parseInt (timeValue st) = Js.Int n -> 0 <= now ->
  ((exists t, trigger request = Js.Int t)
   <-> now + n * unit_milliseconds (timeUnit st) <= max_time_value) /\
  (trigger request = Js.NaN
   <-> max_time_value < now + n * unit_milliseconds (timeUnit st)) /\
  (forall t : Z, trigger request = Js.Int t ->
     t = now + n * unit_milliseconds (timeUnit st) /\
     getMilliseconds (timeValue st) (timeUnit st)
       = Js.Int (n * unit_milliseconds (timeUnit st))).
Proof.
  intros H Hp Hnow.
  destruct (scheduleReminder_await_inv _ _ _ _ _ H) as (n' & Ht & Hn & Hp').
  rewrite Hp in Hp'. injection Hp' as <-.
  rewrite (scheduleReminder_validated now st n) in H by trivial.
  injection H as <- <- <-. cbn [trigger].
  destruct (Z.le_gt_cases (now + n * unit_milliseconds (timeUnit st)) max_time_value)
    as [Hle|Hgt].
  - destruct (trigger_in_range now _ _ n Hp Hn Hnow Hle) as [Hms ->].
    split; [split; eauto|]. split; [split; [discriminate | lia]|].
    intros t [= <-]. now split.
  - rewrite (trigger_out_of_range now _ _ n) by assumption.
    split; [split; [intros [t E]; discriminate E | lia]|].
    split; [now split|]. intros t E. discriminate E.
Qed.

Lemma scheduleReminder_trigger_valid_iff_witness :
  Js.newDate (Js.add 1700000000000 (getMilliseconds "2400000001" "hours")) = Js.NaN.
Proof.
  apply (proj1 (proj2 (scheduleReminder_trigger_valid_iff
           1700000000000 typed_far_future typed_far_future
           (mkRequest (mkContent "Reminder!" "Call mom" true)
              (Js.newDate (Js.add 1700000000000
                             (getMilliseconds "2400000001" "hours"))))
           (scheduleReminder_resume typed_far_future (Js.Int 2400000001)
              (Js.newDate (Js.add 1700000000000
                             (getMilliseconds "2400000001" "hours"))))
           2400000001 eq_refl eq_refl ltac:(lia)))).
  vm_compute. reflexivity.
Defined.

(** A magnitude string made of the numeral of a positive integer [n]
    followed by anything that does not start with a digit is accepted, and
    scheduled as [n]. *)
Lemma scheduleReminder_lenient_prefix (now : Z) (st : App) (n : Z)
    (c : ascii) (rest : string) :
  0 < n -> n * 3600000 <= max_safe_integer -> Js.radix_digit 10 c = None ->
  reminderText st <> "" -> timeValue st = decimal_numeral n ++ String c rest ->
  (forall m : Z, decimal_numeral m <> timeValue st) /\
  Js.parseInt (timeValue st) = Js.Int n /\
  getMilliseconds (timeValue st) "seconds" = Js.Int (n * 1000) /\
  getMilliseconds (timeValue st) "minutes" = Js.Int (n * 60000) /\
  getMilliseconds (timeValue st) "hours" = Js.Int (n * 3600000) /\
  getMilliseconds (timeValue st) (timeUnit st)
    = Js.Int (n * unit_milliseconds (timeUnit st)) /\
  exists request resume,
    scheduleReminder now st = Await st (scheduleNotificationAsync request) resume /\
    (forall (id : string) (cur : App) (r : Reminder.t),
       reminders (final (resume (Resolved id) cur)) = (reminders cur ++ [r])%list ->
       Reminder.timeValue r = Js.Int n) /\
    (0 <= now -> now + n * unit_milliseconds (timeUnit st) <= max_time_value ->
     trigger request = Js.Int (now + n * unit_milliseconds (timeUnit st)) /\
     forall (id : string) (cur : App),
       reminders (final (resume (Resolved id) cur))
       = (reminders cur ++
          [Reminder.mk id (reminderText st) (Js.Int n) (timeUnit st)
             (Js.Int (now + n * unit_milliseconds (timeUnit st)))])%list).
Proof.
  intros Hn Hsafe Hc Ht Hv.
  assert (Hn' : 0 < n <= max_safe_integer) by lia.
  assert (Hp : Js.parseInt (timeValue st) = Js.Int n)
    by (rewrite Hv; now apply parseInt_lenient_prefix).
  assert (Hms : forall unit, getMilliseconds (timeValue st) unit
                             = Js.Int (n * unit_milliseconds unit)).
  { intros unit. apply getMilliseconds_exact; trivial.
    destruct (unit_milliseconds_cases unit) as [-> | [-> | ->]]; lia. }
  split; [intros m; rewrite Hv; now apply decimal_numeral_not_prefix|].
  split; [assumption|].
  split; [apply (Hms "seconds")|]. split; [apply (Hms "minutes")|].
  split; [apply (Hms "hours")|]. split; [apply Hms|].
  do 2 eexists. split; [now apply (scheduleReminder_validated now st n)|].
  split.
  - intros id cur r.
    destruct (newDate_cases
                (Js.add now (getMilliseconds (timeValue st) (timeUnit st))))
      as [-> | [t ->]]; cbn; intros Hr.
    + symmetry in Hr. now apply app_singleton_neq in Hr.
    + apply app_inj_tail in Hr as [_ <-]. reflexivity.
  - intros Hnow Hmax. cbn [trigger].
    destruct (trigger_in_range now _ _ n Hp Hn Hnow Hmax) as [_ ->].
    split; reflexivity.
Qed.

(** C9: the magnitude strings "3x" and "2.9" are the decimal numeral of
    no integer, yet [parseInt] reads 3 and 2 off them: validation passes
    and the gateway is called; the duration is that of 3 and of 2 (3000
    and 2000 ms for ['seconds'], 180000 and 120000 for ['minutes'],
    10800000 and 7200000 for ['hours']); a reminder the run records keeps
    the magnitude 3 or 2; and at a clock reading after 1970 from which the
    fire time is a time value of a [Date], the gateway is asked for [now]
    plus that duration and the reminder appended when the call resolves
    has the magnitude 3 or 2 and that fire time. *)
Theorem scheduleReminder_lenient_magnitude (now : Z) (st : App) (k : Z) :
  reminderText st <> "" ->
  (timeValue st = "3x" /\ k = 3) \/ (timeValue st = "2.9" /\ k = 2) ->
  (forall m : Z, decimal_numeral m <> timeValue st) /\
  Js.parseInt (timeValue st) = Js.Int k /\
  getMilliseconds (timeValue st) "seconds" = Js.Int (k * 1000) /\
  getMilliseconds (timeValue st) "minutes" = Js.Int (k * 60000) /\
  getMilliseconds (timeValue st) "hours" = Js.Int (k * 3600000) /\
  getMilliseconds (timeValue st) (timeUnit st)
    = Js.Int (k * unit_milliseconds (timeUnit st)) /\
  exists request resume,
    scheduleReminder now st = Await st (scheduleNotificationAsync request) resume /\
    (forall (id : string) (cur : App) (r : Reminder.t),
       reminders (final (resume (Resolved id) cur)) = (reminders cur ++ [r])%list ->
       Reminder.timeValue r = Js.Int k) /\
    (0 <= now -> now + k * unit_milliseconds (timeUnit st) <= max_time_value ->
     trigger request = Js.Int (now + k * unit_milliseconds (timeUnit st)) /\
     forall (id : string) (cur : App),
       reminders (final (resume (Resolved id) cur))
       = (reminders cur ++
          [Reminder.mk id (reminderText st) (Js.Int k) (timeUnit st)
             (Js.Int (now + k * unit_milliseconds (timeUnit st)))])%list).
Proof.
  intros Ht [[Hv ->]|[Hv ->]].
  - apply (scheduleReminder_lenient_prefix now st 3 "x" ""); trivial;
      first [lia | (vm_compute; discriminate)].
  - apply (scheduleReminder_lenient_prefix now st 2 "." "9"); trivial;
      first [lia | (vm_compute; discriminate)].
Qed.

Lemma scheduleReminder_lenient_magnitude_witness :
  getMilliseconds "3x" "minutes" = Js.Int (3 * 60000) /\
  getMilliseconds "2.9" "hours" = Js.Int (2 * 3600000) /\
  exists request resume,
    scheduleReminder 1000 (setTimeValue "3x" typed_call_mom)
      = Await (setTimeValue "3x" typed_call_mom)
              (scheduleNotificationAsync request) resume /\
    trigger request = Js.Int (1000 + 3 * 60000) /\
    reminders (final (resume (Resolved "n4") three_pending))
      = (reminders three_pending ++
         [Reminder.mk "n4" "Call mom" (Js.Int 3) "minutes"
            (Js.Int (1000 + 3 * 60000))])%list.
Proof.
  split; [|split].
  - apply (scheduleReminder_lenient_magnitude 1000 (setTimeValue "3x" typed_call_mom) 3).
    + discriminate.
    + left. split; reflexivity.
  - apply (scheduleReminder_lenient_magnitude 1000 (setTimeValue "2.9" typed_call_mom) 2).
    + discriminate.
    + right. split; reflexivity.
  - destruct (scheduleReminder_lenient_magnitude 1000
                (setTimeValue "3x" typed_call_mom) 3)
      as (_ & _ & _ & _ & _ & _ & request & resume & H1 & _ & H2).
    + discriminate.
    + left. split; reflexivity.
    + destruct H2 as [H2 H3]; [lia | vm_compute; discriminate |].
      exists request, resume. split; [exact H1|]. split; [exact H2|].
      exact (H3 "n4" three_pending).
Defined.

(** ** The app-state handler *)

Lemma prefix_spec (word s : string) :
  String.prefix word s = true <-> exists post, s = word ++ post.
Proof.
  revert s. induction word as [|a word IH]; intros s.
  - split; [intros _; exists s; reflexivity | now destruct s].
  - destruct s as [|b s]; cbn [String.prefix].
    + split; [discriminate | intros [post H]; discriminate H].
    + destruct (ascii_dec a b) as [->|Hab].
      * rewrite IH. split; intros [post H]; exists post.
        -- now rewrite append_cons, <- H.
        -- rewrite append_cons in H. now injection H.
      * split; [discriminate|].
        intros [post H]. rewrite append_cons in H. now injection H as <-.
Qed.

(** The search finds the word exactly when it occurs. *)
Lemma includes_spec (word s : string) :
  Js.includes word s = true <-> occurs_in word s.
Proof.
  induction s as [|b s IH]; cbn [Js.includes]; rewrite orb_true_iff, prefix_spec.
  - split.
    + intros [[post H]|H]; [|discriminate H]. now exists "", post.
    + intros (pre & post & H). left. destruct pre; [now exists post|discriminate H].
  - rewrite IH. split.
    + intros [[post H]|(pre & post & H)]; [now exists "", post|].
      exists (String b pre), post. now rewrite append_cons, <- H.
    + intros (pre & post & H). destruct pre as [|c pre].
      * left. now exists post.
      * right. rewrite append_cons in H. injection H as _ H. now exists pre, post.
Qed.

Lemma resume_transition_spec (previous next : string) :
  matches_inactive_or_background previous && String.eqb next "active" = true
  <-> resume_transition previous next.
Proof.
  unfold matches_inactive_or_background, resume_transition.
  now rewrite andb_true_iff, orb_true_iff, !includes_spec, String.eqb_eq.
Qed.

(** C8: on a change of app state the handler records the new state, and
    it runs the compaction exactly on the transitions whose previous state
    matches background or inactive and whose next state is active; on any
    other transition (active to background, background to inactive, ...)
    nothing but the recorded state changes, the store in particular. *)
Theorem setupAppStateHandler_edge (now : Z) (next : string) (st : App) :
  let st' := setupAppStateHandler now next st in
  appState st' = next /\
  (resume_transition (appState st) next ->
   st' = setAppState next (cleanupExpiredReminders now st)) /\
  (~ resume_transition (appState st) next ->
   st' = setAppState next st /\ reminders st' = reminders st) /\
  (appState st = "active" -> next = "background" -> reminders st' = reminders st) /\
  (appState st = "background" -> next = "inactive" -> reminders st' = reminders st).
Proof.
  intros st'. subst st'. unfold setupAppStateHandler.
  pose proof (resume_transition_spec (appState st) next) as Hspec.
  destruct (matches_inactive_or_background (appState st) && String.eqb next "active").
  - split; [reflexivity|]. split; [reflexivity|].
    assert (Hr : resume_transition (appState st) next) by now apply Hspec.
    split; [tauto|]. destruct Hr as [_ ->]. split; discriminate.
  - split; [reflexivity|].
    assert (Hr : ~ resume_transition (appState st) next)
      by (intros Hr; apply Hspec in Hr; discriminate Hr).
    split; [tauto|]. repeat split.
Qed.

Lemma setupAppStateHandler_edge_witness :
  setupAppStateHandler 125000 "active" three_pending
  = setAppState "active" (cleanupExpiredReminders 125000 three_pending) /\
  reminders (setupAppStateHandler 125000 "inactive" three_pending)
  = reminders three_pending.
Proof.
  split.
  - apply (proj1 (proj2 (setupAppStateHandler_edge 125000 "active" three_pending))).
    split; [|reflexivity]. right. exists "", "". reflexivity.
  - apply (proj2 (proj2 (proj2 (proj2
      (setupAppStateHandler_edge 125000 "inactive" three_pending)))));
      reflexivity.
Defined.

(** ** Cancellation *)

Lemma length_filter_remove_id (X : string) (l : list Reminder.t) :
  NoDup (Reminder.id <$> l) -> X ∈ Reminder.id <$> l ->
  S (length (filter (fun r => Reminder.id r <> X) l)) = length l.
Proof.
  induction l as [|r l IH]; intros Hnd Hin.
  - now apply elem_of_nil in Hin.
  - rewrite fmap_cons in Hnd, Hin. apply NoDup_cons in Hnd as [Hr Hnd].
    destruct (decide (Reminder.id r = X)) as [E|E].
    + rewrite filter_cons_False by tauto. subst X.
      rewrite filter_all; [reflexivity|].
      apply Forall_forall. intros r' Hr' E. apply Hr, list_elem_of_fmap. eauto.
    + rewrite filter_cons_True by assumption. cbn [length]. f_equal.
      apply IH; [assumption|]. apply elem_of_cons in Hin as [Hin|Hin]; congruence.
Qed.

Lemma not_elem_of_ids_cleanupReminder (X : string) (st : App) :
  X ∉ ids (cleanupReminder X st).
Proof.
  unfold ids. rewrite cleanupReminder_reminders.
  intros (r & Hr & Hin)%list_elem_of_fmap.
  apply list_elem_of_filter in Hin as [Hne _]. congruence.
Qed.

(** The ids stay pairwise distinct as long as the gateway hands out fresh
    ones. *)
Lemma NoDup_ids_preserved (cur : App) :
  NoDup (ids cur) ->
  (forall id, NoDup (ids (cleanupReminder id cur))) /\
  (forall now, NoDup (ids (cleanupExpiredReminders now cur))) /\
  (forall st numValue trigger id, id ∉ ids cur ->
     NoDup (ids (final (scheduleReminder_resume st numValue trigger (Resolved id) cur)))).
Proof.
  intros Hnd. unfold ids in *. split; [|split].
  - intros id. rewrite cleanupReminder_reminders.
    eapply sublist_NoDup; [exact Hnd|]. apply fmap_sublist, sublist_filter.
  - intros now. rewrite cleanupExpiredReminders_reminders.
    eapply sublist_NoDup; [exact Hnd|]. apply fmap_sublist, sublist_filter.
  - intros st numValue [|t] id Hid; cbn; [assumption|]. rewrite fmap_app. cbn.
    apply NoDup_app. split; [assumption|]. split; [|apply NoDup_singleton].
    intros x Hx ->%list_elem_of_singleton. contradiction.
Qed.

(** C2, as the code has it: [cancelReminder] first calls the gateway's
    cancel for the id; when that call has resolved it removes the id from
    the store and shows "Reminder cancelled": a store with pairwise
    distinct ids that held the id has one record fewer and holds it no
    more. *)
Theorem cancelReminder_resolved (X : string) (st cur : App) :
  cancelReminder X st
    = Await st (cancelScheduledNotificationAsync X) (cancelReminder_resume X) /\
  (X ∈ ids cur -> NoDup (ids cur) ->
   exists after,
     cancelReminder_resume X (Resolved tt) cur = Fulfilled after /\
     S (length (reminders after)) = length (reminders cur) /\
     (X ∉ ids after) /\
     toastMessage after = cancelled_message /\ toastVisible after = true).
Proof.
  split; [reflexivity|]. intros Hin Hnd.
  eexists. split; [reflexivity|].
  cbn [reminders showToast setToastVisible setToastMessage].
  split; [now apply length_filter_remove_id|].
  split; [apply (not_elem_of_ids_cleanupReminder X cur)|].
  split; reflexivity.
Qed.

Lemma cancelReminder_resolved_witness :
  exists after,
    cancelReminder_resume "n2" (Resolved tt) three_pending = Fulfilled after /\
    S (length (reminders after)) = length (reminders three_pending) /\
    ("n2" ∉ ids after) /\
    toastMessage after = cancelled_message /\ toastVisible after = true.
Proof.
  apply (cancelReminder_resolved "n2" three_pending three_pending).
  - vm_compute. apply list_elem_of_further, list_elem_of_here.
  - apply (bool_decide_unpack _). vm_compute. exact I.
Defined.

(** C2, as stated, fails: when the gateway's cancel call is rejected the
    promise of [cancelReminder] is rejected with the same error, the state
    is what it was, and the entry is still in the store. *)
Lemma cancelReminder_rejected_keeps_entry :
  "n1" ∈ ids one_pending /\
  settle (cancelReminder "n1" one_pending) (Rejected "E_UNAVAILABLE")
    = Failed "E_UNAVAILABLE" one_pending /\
  ~ cancellation_removes "n1" one_pending (Rejected "E_UNAVAILABLE").
Proof.
  split; [vm_compute; apply list_elem_of_here|].
  split; [reflexivity|].
  intros (Hlen & _). vm_compute in Hlen. discriminate Hlen.
Qed.


(** * Further properties *)

(** ** More on [parseInt] *)

Lemma trim_start_blank (w s : string) :
  blank w = true -> Js.trim_start (w ++ s) = Js.trim_start s.
Proof.
  induction w as [|c w IH]; [reflexivity|].
  cbn [blank]. intros [Hc Hw]%andb_true_iff.
  rewrite append_cons. cbn [Js.trim_start]. rewrite Hc. auto.
Qed.

Lemma parseInt_blank_prefix (w s : string) :
  blank w = true -> Js.parseInt (w ++ s) = Js.parseInt s.
Proof. intros Hw. unfold Js.parseInt. now rewrite trim_start_blank. Qed.

Lemma append_nil_r (s : string) : s ++ "" = s.
Proof. induction s as [|c s IH]; [reflexivity|]. now rewrite append_cons, IH. Qed.

Lemma parseInt_blank (w : string) : blank w = true -> Js.parseInt w = Js.NaN.
Proof.
  intros Hw. rewrite <- (append_nil_r w), parseInt_blank_prefix by assumption.
  reflexivity.
Qed.

(** X1: [getMilliseconds] skips white space before the magnitude: on the
    numeral of an integer [n] after any white space it gives [n] times the
    unit, as long as that duration is within the safe integers (at most
    [2^53 - 1] in magnitude), and so it does when the numeral of a
    positive [n] is followed by anything that starts with no digit. *)
Theorem getMilliseconds_numeral_in_context (w : string) (n : Z) (c : ascii)
    (rest unit : string) :
  blank w = true -> Z.abs n * unit_milliseconds unit <= max_safe_integer ->
  Js.parseInt (w ++ decimal_numeral n) = Js.Int n /\
  getMilliseconds (w ++ decimal_numeral n) unit
    = Js.Int (n * unit_milliseconds unit) /\
  (0 < n -> Js.radix_digit 10 c = None ->
   getMilliseconds (w ++ decimal_numeral n ++ String c rest) unit
     = Js.Int (n * unit_milliseconds unit)).
Proof.
  intros Hw Hsafe. pose proof (unit_milliseconds_pos unit) as Hu.
  assert (Hn : Z.abs n <= max_safe_integer) by nia.
  assert (Hp : Js.parseInt (w ++ decimal_numeral n) = Js.Int n)
    by (rewrite parseInt_blank_prefix by assumption;
        now apply parseInt_decimal_numeral).
  split; [exact Hp|]. split; [now apply getMilliseconds_exact|].
  intros Hpos Hc. apply getMilliseconds_exact; [|assumption].
  rewrite parseInt_blank_prefix by assumption.
  apply parseInt_lenient_prefix; [lia | assumption].
Qed.

Lemma getMilliseconds_numeral_in_context_witness :
  getMilliseconds ("  " ++ decimal_numeral 15) "minutes" = Js.Int (15 * 60000) /\
  getMilliseconds ("  " ++ decimal_numeral 15 ++ "min") "minutes"
    = Js.Int (15 * 60000).
Proof.
  split.
  - apply (proj1 (proj2
      (getMilliseconds_numeral_in_context "  " 15 "m" "in" "minutes" eq_refl
         ltac:(vm_compute; discriminate)))).
  - apply (proj2 (proj2
      (getMilliseconds_numeral_in_context "  " 15 "m" "in" "minutes" eq_refl
         ltac:(vm_compute; discriminate))));
      [lia | reflexivity].
Defined.

(** X2: a magnitude made of white space only is not an empty one: with a
    label typed in, the run ends with the "invalid number" message, not the
    "missing input" one. *)
Theorem scheduleReminder_blank_magnitude (now : Z) (st : App) :
  reminderText st <> "" -> timeValue st <> "" -> blank (timeValue st) = true ->
  scheduleReminder now st = Return (showToast invalid_number_message st).
Proof.
  intros Ht Hv Hb. apply scheduleReminder_invalid_number; trivial.
  intros (n & _ & Hn). rewrite parseInt_blank in Hn by assumption. discriminate Hn.
Qed.

Lemma scheduleReminder_blank_magnitude_witness :
  scheduleReminder 0 (setTimeValue "  " typed_call_mom)
  = Return (showToast invalid_number_message (setTimeValue "  " typed_call_mom)).
Proof.
  apply (scheduleReminder_blank_magnitude 0 (setTimeValue "  " typed_call_mom));
    [discriminate | discriminate | reflexivity].
Defined.

(** ** Hexadecimal magnitudes *)

Lemma hex_value_of_uint_acc (d : Hexadecimal.uint) (acc : positive) :
  hex_value d (Z.pos acc) = Z.pos (Pos.of_hex_uint_acc d acc).
Proof.
  revert acc.
  induction d; intros acc; cbn [hex_value Pos.of_hex_uint_acc]; trivial;
    rewrite <- IHd; f_equal; lia.
Qed.

Lemma hex_value_of_uint (d : Hexadecimal.uint) :
  hex_value d 0 = Z.of_N (Pos.of_hex_uint d).
Proof. induction d; simpl; trivial; apply hex_value_of_uint_acc. Qed.

Lemma parse_digits_hex_string (d : Hexadecimal.uint) (acc : Z) :
  Js.parse_digits 16 true acc (HexadecimalString.NilEmpty.string_of_uint d)
  = Some (hex_value d acc).
Proof.
  revert acc.
  induction d; intros acc;
    cbn [HexadecimalString.NilEmpty.string_of_uint hex_value Js.parse_digits];
    trivial; apply IHd.
Qed.

Lemma parseInt_0x_string_of_uint (d : Hexadecimal.uint) :
  d <> Hexadecimal.Nil ->
  Js.parseInt ("0x" ++ HexadecimalString.NilEmpty.string_of_uint d)
  = Js.Int (Js.round (hex_value d 0)).
Proof.
  intros Hd. rewrite !append_cons, append_nil_l. unfold Js.parseInt.
  cbn [Js.trim_start]. eval_char_tests. cbn [Js.strip_prefix].
  destruct d; [contradiction|..];
    cbn [HexadecimalString.NilEmpty.string_of_uint Js.parse_digits hex_value];
    eval_char_tests; cbn iota;
    rewrite parse_digits_hex_string; do 2 f_equal; lia.
Qed.

Lemma parseInt_hex_numeral (n : N) :
  Z.of_N n <= max_safe_integer ->
  Js.parseInt (hex_numeral n) = Js.Int (Z.of_N n).
Proof.
  intros Hn. unfold hex_numeral. rewrite parseInt_0x_string_of_uint.
  - rewrite hex_value_of_uint.
    change (Pos.of_hex_uint (N.to_hex_uint n)) with (N.of_hex_uint (N.to_hex_uint n)).
    rewrite HexadecimalN.Unsigned.of_to, round_exact; [reflexivity | lia].
  - destruct n; [discriminate | apply HexadecimalPos.Unsigned.to_uint_nonnil].
Qed.

(** X3: a magnitude written ["0x"] and hexadecimal digits is read in base
    16 (exactly, up to [2^53 - 1]): that of zero is rejected as an invalid
    number, that of a positive [n] passes validation, and at a clock
    reading after 1970 from which the fire time [now + n * unit] is a time
    value of a [Date] the gateway is asked for that instant and the
    reminder appended when the call resolves keeps the magnitude [n]. *)
Theorem scheduleReminder_hex_magnitude (now : Z) (st : App) (n : N) :
  reminderText st <> "" -> timeValue st = hex_numeral n ->
  Z.of_N n <= max_safe_integer ->
  Js.parseInt (timeValue st) = Js.Int (Z.of_N n) /\
  (n = 0%N ->
   scheduleReminder now st = Return (showToast invalid_number_message st)) /\
  (n <> 0%N ->
   exists request resume,
     scheduleReminder now st = Await st (scheduleNotificationAsync request) resume /\
     (0 <= now ->
      now + Z.of_N n * unit_milliseconds (timeUnit st) <= max_time_value ->
      trigger request = Js.Int (now + Z.of_N n * unit_milliseconds (timeUnit st)) /\
      forall (id : string) (cur : App), exists r,
        reminders (final (resume (Resolved id) cur)) = (reminders cur ++ [r])%list /\
        Reminder.timeValue r = Js.Int (Z.of_N n) /\
        Reminder.scheduledFor r
          = Js.Int (now + Z.of_N n * unit_milliseconds (timeUnit st)))).
Proof.
  intros Ht Hv Hsafe.
  assert (Hp : Js.parseInt (timeValue st) = Js.Int (Z.of_N n))
    by (rewrite Hv; now apply parseInt_hex_numeral).
  split; [assumption|]. split.
  - intros ->. apply scheduleReminder_invalid_number; trivial.
    + rewrite Hv. discriminate.
    + intros (m & Hm & Hm'). rewrite Hp in Hm'. injection Hm' as <-. lia.
  - intros Hn. do 2 eexists.
    split; [apply (scheduleReminder_validated now st (Z.of_N n)); trivial; lia|].
    intros Hnow Hmax. cbn [trigger].
    destruct (trigger_in_range now _ _ (Z.of_N n) Hp ltac:(lia) Hnow Hmax)
      as [_ ->].
    split; [reflexivity|].
    intros id cur. eexists. split; [reflexivity|]. split; reflexivity.
Qed.

Lemma scheduleReminder_hex_magnitude_witness :
  Js.parseInt "0x1f" = Js.Int 31 /\
  exists request resume,
    scheduleReminder 1000 (setTimeValue "0x1f" typed_call_mom)
      = Await (setTimeValue "0x1f" typed_call_mom)
              (scheduleNotificationAsync request) resume /\
    trigger request = Js.Int (1000 + 31 * 60000).
Proof.
  destruct (scheduleReminder_hex_magnitude 1000
              (setTimeValue "0x1f" typed_call_mom) 31) as (Hp & _ & H).
  - discriminate.
  - reflexivity.
  - vm_compute. discriminate.
  - split; [exact Hp|].
    destruct H as (request & resume & H1 & H2); [discriminate|].
    exists request, resume. split; [exact H1|].
    apply H2; [lia | vm_compute; discriminate].
Defined.

(** ** The phrase of a row *)

Lemma formatTimeLeft_phrase (value : Js.number) (unit : string) :
  formatTimeLeft value unit = Number_toString value ++ String " " unit.
Proof.
  unfold formatTimeLeft.
  destruct (String.eqb_spec unit "seconds") as [->|_]; [reflexivity|].
  destruct (String.eqb_spec unit "minutes") as [->|_]; [reflexivity|].
  destruct (String.eqb_spec unit "hours") as [->|_]; reflexivity.
Qed.

(** X4: for a positive magnitude (within the safe integers) the phrase of
    a row is the numeral, a space and the unit, whatever the unit and
    with no singular; [parseInt] reads the magnitude back off it, and two
    phrases are equal only for the same magnitude and the same unit. *)
Theorem formatTimeLeft_unambiguous (n m : Z) (unit unit' : string) :
  0 < n <= max_safe_integer -> 0 < m <= max_safe_integer ->
  formatTimeLeft (Js.Int n) unit = decimal_numeral n ++ " " ++ unit /\
  Js.parseInt (formatTimeLeft (Js.Int n) unit) = Js.Int n /\
  (formatTimeLeft (Js.Int n) unit = formatTimeLeft (Js.Int m) unit' ->
   n = m /\ unit = unit').
Proof.
  intros Hn Hm. rewrite !formatTimeLeft_phrase. cbn [Number_toString].
  split; [reflexivity|].
  split; [now apply parseInt_lenient_prefix|].
  intros E.
  assert (Hnm : n = m).
  { apply (f_equal Js.parseInt) in E.
    rewrite !parseInt_lenient_prefix in E by easy. now injection E. }
  subst m. split; [reflexivity|].
  apply String.app_inj in E. now injection E.
Qed.

Lemma formatTimeLeft_unambiguous_witness :
  formatTimeLeft (Js.Int 1) "minutes" = "1 minutes" /\
  Js.parseInt (formatTimeLeft (Js.Int 1) "minutes") = Js.Int 1.
Proof.
  split; apply (formatTimeLeft_unambiguous 1 1 "minutes" "minutes");
    unfold max_safe_integer; lia.
Defined.

(** ** Sweeps *)

Lemma filter_eq_all {A : Type} (P : A -> Prop) `{!forall x, Decision (P x)} (l : list A) :
  filter P l = l <-> Forall P l.
Proof.
  split; [|apply filter_all; assumption].
  intros E. apply Forall_forall. intros x Hx. rewrite <- E in Hx.
  now apply list_elem_of_filter in Hx.
Qed.

Lemma filter_eq_nil {A : Type} (P : A -> Prop) `{!forall x, Decision (P x)} (l : list A) :
  filter P l = [] <-> Forall (fun x => ~ P x) l.
Proof.
  induction l as [|x l IH]; [now split|].
  rewrite filter_cons, Forall_cons. destruct (decide (P x)); [|tauto].
  split; [discriminate | tauto].
Qed.

(** X5: two sweeps in a row are one sweep at the later of the two instants
    (so a sweep repeated at the same instant changes nothing more, and an
    earlier sweep after a later one is void). *)
Theorem cleanupExpiredReminders_compose (t1 t2 : Z) (st : App) :
  cleanupExpiredReminders t2 (cleanupExpiredReminders t1 st)
  = cleanupExpiredReminders (Z.max t1 t2) st.
Proof.
  unfold cleanupExpiredReminders, setReminders. cbn. f_equal.
  rewrite list_filter_filter. apply list_filter_iff. intros r.
  rewrite !gt_spec. split.
  - intros [(t & Ht & H2) (t' & Ht' & H1)]. exists t. split; [assumption|].
    rewrite Ht in Ht'. injection Ht' as <-. lia.
  - intros (t & Ht & H). split; exists t; (split; [assumption | lia]).
Qed.

(** X6: a sweep leaves the state as it is exactly when every reminder is
    still pending, and it leaves an empty store exactly when none is. *)
Theorem cleanupExpiredReminders_fixed_or_empty (now : Z) (st : App) :
  (cleanupExpiredReminders now st = st <-> Forall (pending now) (reminders st)) /\
  (reminders (cleanupExpiredReminders now st) = []
   <-> Forall (fun r => ~ pending now r) (reminders st)).
Proof.
  assert (Hp : forall r, pending now r
                          <-> Is_true (Js.gt (Reminder.scheduledFor r) now))
    by (intros r; symmetry; apply gt_spec).
  split.
  - rewrite (Forall_iff _ (reminders st) _ Hp), <- filter_eq_all. split.
    + intros E. apply (f_equal reminders) in E. exact E.
    + intros E. destruct st. unfold cleanupExpiredReminders, setReminders.
      cbn in *. now f_equal.
  - rewrite cleanupExpiredReminders_reminders, filter_eq_nil.
    apply Forall_iff. intros r. now rewrite Hp.
Qed.

Lemma cleanupExpiredReminders_fixed_or_empty_witness :
  cleanupExpiredReminders 100000 three_pending = three_pending /\
  reminders (cleanupExpiredReminders 4000000 three_pending) = [].
Proof.
  split.
  - apply (proj1 (cleanupExpiredReminders_fixed_or_empty 100000 three_pending)).
    repeat constructor; eexists; (split; [reflexivity | lia]).
  - apply (proj2 (cleanupExpiredReminders_fixed_or_empty 4000000 three_pending)).
    repeat constructor; intros (t & [= <-] & Ht); lia.
Defined.

(** ** Scheduling, then *)

(** X9: scheduling and then cancelling gives the store back: when a
    schedule call for a valid date resolves with an id the store did not
    hold, the store holds it, and a cancellation of that id whose call
    resolves leaves the list of reminders that was there before the
    insertion. *)
Theorem schedule_then_cancel (now : Z) (st st' : App)
    (request : NotificationRequest)
    (resume : Settled string -> App -> Completion) (t : Z) (id : string)
    (cur : App) :
  scheduleReminder now st = Await st' (scheduleNotificationAsync request) resume ->
  trigger request = Js.Int t ->
  id ∉ ids cur ->
  let scheduled := final (resume (Resolved id) cur) in
  let cancelled := final (cancelReminder_resume id (Resolved tt) scheduled) in
  id ∈ ids scheduled /\
  reminders cancelled = reminders cur /\
  toastMessage cancelled = cancelled_message.
Proof.
  intros H Htr Hid.
  destruct (scheduleReminder_await_inv _ _ _ _ _ H) as (n & Ht & Hn & Hp).
  rewrite (scheduleReminder_validated now st n) in H by trivial.
  injection H as <- <- <-. cbn [trigger] in Htr. rewrite Htr.
  cbn -[filter]. unfold ids. cbn -[filter].
  split.
  - rewrite fmap_app. apply elem_of_app. right. apply list_elem_of_here.
  - split; [|reflexivity]. rewrite filter_app.
    rewrite (filter_singleton_False _ _ []) by (cbn; tauto).
    rewrite app_nil_r. apply filter_all, Forall_forall.
    intros r Hr <-. apply Hid, list_elem_of_fmap. eauto.
Qed.

Lemma schedule_then_cancel_witness :
  reminders (final (cancelReminder_resume "n9" (Resolved tt)
     (final (scheduleReminder_resume typed_call_mom (Js.Int 2) (Js.Int 120000)
               (Resolved "n9") three_pending))))
  = reminders three_pending.
Proof.
  apply (schedule_then_cancel 0 typed_call_mom typed_call_mom
           (mkRequest (mkContent "Reminder!" "Call mom" true) (Js.Int 120000))
           (scheduleReminder_resume typed_call_mom (Js.Int 2) (Js.Int 120000))
           120000 "n9" three_pending).
  - reflexivity.
  - reflexivity.
  - vm_compute. intros H.
    repeat (apply elem_of_cons in H as [H|H]; [discriminate H|]).
    now apply elem_of_nil in H.
Defined.

(** X10: nothing guards a second press while the first call is pending:
    it passes validation like the first, and, the clock readings being
    after 1970 and both fire times time values of a [Date], when both
    calls resolve the store gets two reminders, with the same label and
    magnitude and fire times apart by the time between the presses. *)
Theorem scheduleReminder_pressed_twice (now1 now2 : Z) (st st1 : App)
    (request1 : NotificationRequest)
    (resume1 : Settled string -> App -> Completion) (t1 : Z) :
  scheduleReminder now1 st = Await st1 (scheduleNotificationAsync request1) resume1 ->
  trigger request1 = Js.Int t1 ->
  0 <= now1 -> 0 <= now2 -> t1 + (now2 - now1) <= max_time_value ->
  exists request2 resume2,
    scheduleReminder now2 st = Await st (scheduleNotificationAsync request2) resume2 /\
    trigger request2 = Js.Int (t1 + (now2 - now1)) /\
    forall (id1 id2 : string) (cur : App), exists a b,
      reminders (final (resume2 (Resolved id2) (final (resume1 (Resolved id1) cur))))
        = (reminders cur ++ [a; b])%list /\
      Reminder.id a = id1 /\ Reminder.id b = id2 /\
      Reminder.text a = reminderText st /\ Reminder.text b = reminderText st /\
      Reminder.timeValue a = Reminder.timeValue b /\
      Reminder.scheduledFor a = Js.Int t1 /\
      Reminder.scheduledFor b = Js.Int (t1 + (now2 - now1)).
Proof.
  intros H Htr Hnow1 Hnow2 Hmax.
  destruct (scheduleReminder_await_inv _ _ _ _ _ H) as (n & Ht & Hn & Hp).
  rewrite (scheduleReminder_validated now1 st n) in H by trivial.
  injection H as <- <- <-. cbn [trigger] in Htr.
  destruct (trigger_valid_inv now1 _ _ n t1 Hp Hn Hnow1 Htr) as [Et1 _].
  destruct (trigger_in_range now2 (timeValue st) (timeUnit st) n Hp Hn Hnow2)
    as [_ Htr2]; [lia|].
  replace (now2 + n * unit_milliseconds (timeUnit st))
    with (t1 + (now2 - now1)) in Htr2 by lia.
  do 2 eexists. split; [now apply (scheduleReminder_validated now2 st n)|].
  cbn [trigger]. rewrite Htr, Htr2. split; [reflexivity|].
  intros id1 id2 cur. do 2 eexists.
  cbn [final scheduleReminder_resume Js.toISOString reminders setReminders
       setReminderText setTimeValue showToast setToastVisible setToastMessage].
  rewrite <- app_assoc. cbn [app].
  split; [reflexivity|].
  cbn [Reminder.id Reminder.text Reminder.timeValue Reminder.scheduledFor].
  repeat (split; [reflexivity|]). reflexivity.
Qed.

Lemma scheduleReminder_pressed_twice_witness :
  exists request2 resume2,
    scheduleReminder 5000 typed_call_mom
      = Await typed_call_mom (scheduleNotificationAsync request2) resume2 /\
    trigger request2 = Js.Int (121000 + (5000 - 1000)) /\
    forall (id1 id2 : string) (cur : App), exists a b,
      reminders (final (resume2 (Resolved id2)
        (final (scheduleReminder_resume typed_call_mom (Js.Int 2) (Js.Int 121000)
                  (Resolved id1) cur))))
        = (reminders cur ++ [a; b])%list /\
      Reminder.id a = id1 /\ Reminder.id b = id2 /\
      Reminder.text a = reminderText typed_call_mom /\
      Reminder.text b = reminderText typed_call_mom /\
      Reminder.timeValue a = Reminder.timeValue b /\
      Reminder.scheduledFor a = Js.Int 121000 /\
      Reminder.scheduledFor b = Js.Int (121000 + (5000 - 1000)).
Proof.
  apply (scheduleReminder_pressed_twice 1000 5000 typed_call_mom typed_call_mom
           (mkRequest (mkContent "Reminder!" "Call mom" true) (Js.Int 121000))
           (scheduleReminder_resume typed_call_mom (Js.Int 2) (Js.Int 121000))
           121000).
  - reflexivity.
  - reflexivity.
  - lia.
  - lia.
  - vm_compute. discriminate.
Defined.

(** X11: when a schedule call for a valid date resolves the label and the
    magnitude are cleared (the unit stays), so that pressing again reports
    missing input; when the call is rejected the form is as typed, and
    pressing again asks the gateway for the same content, the date (both
    clock readings being after 1970 and both dates valid) moved by the
    time elapsed. *)
Theorem scheduleReminder_form_after (now now' : Z) (st st' : App)
    (request : NotificationRequest)
    (resume : Settled string -> App -> Completion) :
  scheduleReminder now st = Await st' (scheduleNotificationAsync request) resume ->
  (forall (t : Z) (id : string) (cur : App),
     trigger request = Js.Int t ->
     let after := final (resume (Resolved id) cur) in
     reminderText after = "" /\ timeValue after = "" /\
     timeUnit after = timeUnit cur /\
     scheduleReminder now' after = Return (showToast missing_input_message after)) /\
  (forall (error : string),
     let after := final (resume (Rejected error) st) in
     reminderText after = reminderText st /\ timeValue after = timeValue st /\
     timeUnit after = timeUnit st /\
     exists request' resume',
       scheduleReminder now' after
         = Await after (scheduleNotificationAsync request') resume' /\
       content request' = content request /\
       forall t : Z,
         trigger request = Js.Int t ->
         0 <= now -> 0 <= now' -> t + (now' - now) <= max_time_value ->
         trigger request' = Js.Int (t + (now' - now))).
Proof.
  intros H.
  destruct (scheduleReminder_await_inv _ _ _ _ _ H) as (n & Ht & Hn & Hp).
  rewrite (scheduleReminder_validated now st n) in H by trivial.
  injection H as <- <- <-. cbn [trigger content]. split.
  - intros t id cur ->.
    repeat (split; [reflexivity|]).
    apply scheduleReminder_missing_input. left. reflexivity.
  - intros error. cbn [final scheduleReminder_resume].
    repeat (split; [reflexivity|]).
    do 2 eexists.
    split; [apply (scheduleReminder_validated now' _ n); trivial|].
    split; [reflexivity|].
    intros t Htr Hnow Hnow' Hmax.
    destruct (trigger_valid_inv now _ _ n t Hp Hn Hnow Htr) as [Et _].
    cbn [trigger timeValue timeUnit showToast setToastVisible setToastMessage].
    destruct (trigger_in_range now' (timeValue st) (timeUnit st) n Hp Hn Hnow')
      as [_ ->]; [lia|]. f_equal. lia.
Qed.

Lemma scheduleReminder_form_after_witness :
  scheduleReminder 5000
    (final (scheduleReminder_resume typed_call_mom (Js.Int 2) (Js.Int 121000)
              (Resolved "n1") three_pending))
  = Return (showToast missing_input_message
      (final (scheduleReminder_resume typed_call_mom (Js.Int 2) (Js.Int 121000)
                (Resolved "n1") three_pending))).
Proof.
  apply (proj1 (scheduleReminder_form_after 1000 5000 typed_call_mom typed_call_mom
           (mkRequest (mkContent "Reminder!" "Call mom" true) (Js.Int 121000))
           (scheduleReminder_resume typed_call_mom (Js.Int 2) (Js.Int 121000))
           eq_refl) 121000 "n1" three_pending eq_refl).
Defined.

(** ** The registration *)

Lemma register_with_finish (answers : list (Settled string)) calls finish (cur : App) :
  register_with registerForPushNotificationsAsync answers = (calls, Some finish) ->
  final (finish cur) = cur \/ final (finish cur) = showToast permission_message cur.
Proof.
  destruct answers as [|[existing|error] answers]; cbn; [discriminate| |].
  - unfold registration_end.
    destruct (String.eqb existing "granted") eqn:He; cbn [negb].
    + intros [= _ <-]. now left.
    + destruct answers as [|[requested|error] answers]; cbn; [discriminate| |].
      * destruct (String.eqb requested "granted"); cbn; intros [= _ <-]; auto.
      * intros [= _ <-]. now left.
  - intros [= _ <-]. now left.
Qed.

(** X13: the registration asks for the permission the application has
    and requests it exactly when that is not ['granted']; it shows
    "Failed to get notification permissions" exactly when both calls
    resolved and the status requested is not ['granted'] either; a
    rejected call rejects the registration and shows nothing; whatever the
    answers, the state is left as it was but for that toast. *)
Theorem registerForPushNotificationsAsync_flow (answers : list (Settled string)) :
  (forall existing requested : string,
     existing <> "granted" ->
     register_with registerForPushNotificationsAsync
       (Resolved existing :: Resolved requested :: answers)
     = ([getPermissionsAsync; requestPermissionsAsync],
        Some (if String.eqb requested "granted" then Fulfilled
              else fun cur => Fulfilled (showToast permission_message cur)))) /\
  register_with registerForPushNotificationsAsync (Resolved "granted" :: answers)
    = ([getPermissionsAsync], Some Fulfilled) /\
  (forall error : string,
     register_with registerForPushNotificationsAsync (Rejected error :: answers)
     = ([getPermissionsAsync], Some (Failed error))) /\
  (forall existing error : string,
     existing <> "granted" ->
     register_with registerForPushNotificationsAsync
       (Resolved existing :: Rejected error :: answers)
     = ([getPermissionsAsync; requestPermissionsAsync], Some (Failed error))) /\
  (forall calls finish (cur : App),
     register_with registerForPushNotificationsAsync answers = (calls, Some finish) ->
     final (finish cur) = cur \/ final (finish cur) = showToast permission_message cur).
Proof.
  split; [|split; [|split; [|split]]].
  - intros existing requested He. apply String.eqb_neq in He.
    cbn [register_with registerForPushNotificationsAsync]. rewrite He.
    cbn [negb register_with]. unfold registration_end.
    destruct (String.eqb requested "granted"); reflexivity.
  - reflexivity.
  - reflexivity.
  - intros existing error He. apply String.eqb_neq in He.
    cbn [register_with registerForPushNotificationsAsync]. rewrite He. reflexivity.
  - intros calls finish cur. apply register_with_finish.
Qed.

Lemma registerForPushNotificationsAsync_flow_witness :
  register_with registerForPushNotificationsAsync
    [Resolved "undetermined"; Resolved "denied"]
  = ([getPermissionsAsync; requestPermissionsAsync],
     Some (fun cur => Fulfilled (showToast permission_message cur))).
Proof.
  apply (proj1 (registerForPushNotificationsAsync_flow []) "undetermined" "denied").
  discriminate.
Defined.

(** ** Rows *)

Lemma filter_other_ids_delete (l : list Reminder.t) (i : nat) (r : Reminder.t) :
  l !! i = Some r -> NoDup (Reminder.id <$> l) ->
  filter (fun x => Reminder.id x <> Reminder.id r) l = delete i l.
Proof.
  revert i. induction l as [|x l IH]; intros i Hi Hnd; [discriminate Hi|].
  rewrite fmap_cons in Hnd. apply NoDup_cons in Hnd as [Hx Hnd].
  destruct i as [|i]; cbn in Hi.
  - injection Hi as ->. rewrite filter_cons_False by tauto. cbn [delete list_delete].
    apply filter_all, Forall_forall. intros y Hy E.
    apply Hx, list_elem_of_fmap. eauto.
  - rewrite filter_cons_True.
    + cbn [delete list_delete]. f_equal. now apply IH.
    + intros E. apply Hx. rewrite E. apply list_elem_of_fmap.
      exists r. split; [reflexivity|]. now apply list_elem_of_lookup_2 in Hi.
Qed.

(** X12: in a store with pairwise distinct ids, pressing Cancel on the row
    at [index] and the gateway call resolving removes exactly that row:
    the store is the list with the element at [index] deleted, no call is
    left pending and "Reminder cancelled" is shown. *)
Theorem cancel_row (sys : System) (index : nat) :
  (index < length (reminders (component sys)))%nat ->
  NoDup (ids (component sys)) ->
  exists sys',
    run [PressCancel index; SettleCancel (length (inflight sys)) (Resolved tt)] sys
      = Some sys' /\
    reminders (component sys') = delete index (reminders (component sys)) /\
    inflight sys' = inflight sys /\
    toastMessage (component sys') = cancelled_message.
Proof.
  intros Hi Hnd. apply lookup_lt_is_Some in Hi as [r Hr].
  eexists. cbn [run dispatch cancelReminder]. rewrite Hr.
  cbn [inflight component]. rewrite list_lookup_middle by reflexivity.
  rewrite delete_middle, app_nil_r.
  split; [reflexivity|]. cbn [component inflight].
  split; [|split; reflexivity].
  cbn [cancelReminder_resume final]. unfold showToast, setToastVisible, setToastMessage.
  cbn [reminders]. rewrite cleanupReminder_reminders.
  now apply filter_other_ids_delete.
Qed.

Lemma cancel_row_witness :
  exists sys',
    run [PressCancel 1%nat; SettleCancel 0%nat (Resolved tt)]
        (mkSystem three_pending [])
      = Some sys' /\
    reminders (component sys') = [call_mom; walk_dog].
Proof.
  destruct (cancel_row (mkSystem three_pending []) 1%nat) as (sys' & H1 & H2 & _).
  - vm_compute. lia.
  - apply (bool_decide_unpack _). vm_compute. exact I.
  - exists sys'. split; [exact H1 | exact H2].
Defined.

(** ** Invariants of the component *)

Lemma Forall_sublist_of {A : Type} (P : A -> Prop) (l k : list A) :
  k `sublist_of` l -> Forall P l -> Forall P k.
Proof.
  intros Hs Hl. apply Forall_forall. intros x Hx.
  rewrite Forall_forall in Hl. apply Hl. eapply elem_of_sublist; eassumption.
Qed.

(** What an event may do to the store and the unit: the operations that
    settle are the only ones to add. *)
Lemma dispatch_ok (e : Event) (sys sys' : System) :
  system_ok sys -> dispatch e sys = Some sys' -> system_ok sys'.
Proof.
  intros (Hu & Hr & Hp) H. destruct sys as [st pend]. cbn in Hu, Hr, Hp.
  destruct e as [text|text|button|now|index| |t|answers|k answer|k answer];
    cbn [dispatch component inflight] in H.
  - injection H as <-. now split.
  - injection H as <-. now split.
  - destruct (units !! button) as [unit|] eqn:Hb; [|discriminate H].
    injection H as <-. split; [|now split].
    now apply list_elem_of_lookup_2 in Hb.
  - destruct (scheduleReminder_cases now st) as [E|[E|(n & Ht & Hn & Hn')]].
    + rewrite E in H. injection H as <-. now split.
    + rewrite E in H. injection H as <-. now split.
    + rewrite (scheduleReminder_validated now st n) in H by trivial.
      injection H as <-. split; [assumption|]. split; [assumption|].
      cbn [inflight]. apply Forall_app. split; [assumption|].
      apply Forall_singleton. cbn. eauto 10.
  - destruct (reminders st !! index) as [r|]; [|discriminate H].
    cbn [cancelReminder] in H. injection H as <-.
    split; [assumption|]. split; [assumption|].
    cbn [inflight]. apply Forall_app. split; [assumption|].
    apply Forall_singleton. cbn. eauto.
  - injection H as <-. now split.
  - injection H as <-. split; [|split; [|assumption]]; cbn [component].
    + destruct t as [identifier|now next|now]; cbn; trivial.
      unfold setupAppStateHandler.
      now destruct (matches_inactive_or_background (appState st) && String.eqb next "active").
    + eapply Forall_sublist_of; [apply fire_sublist | assumption].
  - destruct (register_with registerForPushNotificationsAsync answers)
      as [calls [finish|]] eqn:E; [|discriminate H].
    injection H as <-. cbn [component inflight].
    destruct (register_with_finish answers calls finish st E) as [-> | ->];
      now split.
  - destruct (pend !! k) as [[resume|resume]|] eqn:Hk; try discriminate H.
    injection H as <-. cbn [component inflight].
    assert (Hk' : pending_ok (PendingSchedule resume)).
    { rewrite Forall_forall in Hp. apply Hp. eapply list_elem_of_lookup_2, Hk. }
    destruct Hk' as (st0 & n & [|t] & -> & Hn & Ht & Hu0).
    { split; [|split].
      - now destruct answer.
      - now destruct answer.
      - eapply Forall_sublist_of; [apply sublist_delete | assumption]. }
    split; [|split].
    + now destruct answer.
    + destruct answer as [id|error]; cbn; [|assumption].
      apply Forall_app. split; [assumption|]. apply Forall_singleton.
      unfold well_formed. cbn. eauto 10.
    + eapply Forall_sublist_of; [apply sublist_delete | assumption].
  - destruct (pend !! k) as [[resume|resume]|] eqn:Hk; try discriminate H.
    injection H as <-. cbn [component inflight].
    assert (Hk' : pending_ok (PendingCancel resume)).
    { rewrite Forall_forall in Hp. apply Hp. eapply list_elem_of_lookup_2, Hk. }
    destruct Hk' as (id & ->).
    split; [|split].
    + now destruct answer.
    + destruct answer as [[]|error]; cbn -[filter]; [|assumption].
      eapply Forall_sublist_of; [apply sublist_filter | assumption].
    + eapply Forall_sublist_of; [apply sublist_delete | assumption].
Qed.


Lemma boot_ok (currentState : string) : system_ok (boot currentState).
Proof.
  split; [|split]; cbn.
  - apply list_elem_of_further, list_elem_of_here.
  - constructor.
  - constructor.
Qed.



Lemma issued_cons (e : Event) (events : list Event) :
  issued (e :: events) = (issued [e] ++ issued events)%list.
Proof. destruct e as [| | | | | | | |k [id|error]|]; reflexivity. Qed.

Lemma fire_ids_sublist (t : Trigger) (st : App) :
  ids (fire t st) `sublist_of` ids st.
Proof. apply fmap_sublist, fire_sublist. Qed.

(** One event: the ids of the store are among the ids it had, followed by
    the id the gateway just answered with, if any. *)
Lemma dispatch_ids (e : Event) (sys sys' : System) :
  system_ok sys -> dispatch e sys = Some sys' ->
  ids (component sys') `sublist_of` (ids (component sys) ++ issued [e])%list.
Proof.
  intros (Hu & Hr & Hp) H. destruct sys as [st pend]. cbn in Hu, Hr, Hp.
  cbn [component].
  assert (Hsub : forall st' l, ids st' `sublist_of` ids st ->
            ids st' `sublist_of` (ids st ++ l)%list).
  { intros st' l E. now apply sublist_inserts_r. }
  assert (Hsame : forall st' l, ids st' = ids st ->
            ids st' `sublist_of` (ids st ++ l)%list).
  { intros st' l E. apply Hsub. now rewrite E. }
  destruct e as [text|text|button|now|index| |t|answers|k answer|k answer];
    cbn [dispatch component inflight] in H.
  - injection H as <-. now apply Hsame.
  - injection H as <-. now apply Hsame.
  - destruct (units !! button); [|discriminate H]. injection H as <-. now apply Hsame.
  - destruct (scheduleReminder_cases now st) as [E|[E|(n & Ht & Hn & Hn')]].
    + rewrite E in H. injection H as <-. now apply Hsame.
    + rewrite E in H. injection H as <-. now apply Hsame.
    + rewrite (scheduleReminder_validated now st n) in H by trivial.
      injection H as <-. now apply Hsame.
  - destruct (reminders st !! index); [|discriminate H].
    cbn [cancelReminder] in H. injection H as <-. now apply Hsame.
  - injection H as <-. now apply Hsame.
  - injection H as <-. cbn [component]. apply Hsub, fire_ids_sublist.
  - destruct (register_with registerForPushNotificationsAsync answers)
      as [calls [finish|]] eqn:E; [|discriminate H].
    injection H as <-. cbn [component].
    destruct (register_with_finish answers calls finish st E) as [-> | ->];
      now apply Hsame.
  - destruct (pend !! k) as [[resume|resume]|] eqn:Hk; try discriminate H.
    injection H as <-. cbn [component].
    assert (Hk' : pending_ok (PendingSchedule resume)).
    { rewrite Forall_forall in Hp. apply Hp. eapply list_elem_of_lookup_2, Hk. }
    destruct Hk' as (st0 & n & [|t] & -> & _).
    { destruct answer as [id|error]; now apply Hsame. }
    destruct answer as [id|error]; [|now apply Hsame].
    cbn [issued]. unfold ids. cbn. now rewrite fmap_app.
  - destruct (pend !! k) as [[resume|resume]|] eqn:Hk; try discriminate H.
    injection H as <-. cbn [component].
    assert (Hk' : pending_ok (PendingCancel resume)).
    { rewrite Forall_forall in Hp. apply Hp. eapply list_elem_of_lookup_2, Hk. }
    destruct Hk' as (id & ->).
    destruct answer as [[]|error]; [|now apply Hsame].
    apply Hsub. unfold ids. cbn -[filter]. apply fmap_sublist, sublist_filter.
Qed.

Lemma run_ids (events : list Event) (sys sys' : System) :
  system_ok sys -> run events sys = Some sys' ->
  ids (component sys') `sublist_of` (ids (component sys) ++ issued events)%list.
Proof.
  revert sys. induction events as [|e events IH]; intros sys Hok H; cbn [run] in H.
  - injection H as <-. cbn [issued]. now rewrite app_nil_r.
  - destruct (dispatch e sys) as [sys1|] eqn:E; [|discriminate H].
    pose proof (dispatch_ok _ _ _ Hok E) as Hok1.
    pose proof (dispatch_ids _ _ _ Hok E) as Hids.
    etransitivity; [apply (IH sys1 Hok1 H)|].
    rewrite (issued_cons e events), app_assoc.
    apply sublist_app; [assumption | reflexivity].
Qed.

(** X15: whatever the events since the component was mounted, the ids in
    the store are, in their order, among the ids the gateway answered
    schedule calls with: there are no more reminders than such answers,
    and the ids are pairwise distinct as long as the gateway never
    answers with the same id twice. *)
Theorem reachable_ids (currentState : string) (events : list Event) (sys : System) :
  run events (boot currentState) = Some sys ->
  ids (component sys) `sublist_of` issued events /\
  (length (reminders (component sys)) <= length (issued events))%nat /\
  (NoDup (issued events) -> NoDup (ids (component sys))).
Proof.
  intros H.
  pose proof (run_ids _ _ _ (boot_ok currentState) H) as Hs. cbn in Hs.
  split; [assumption|]. split.
  - apply sublist_length in Hs. unfold ids in Hs. now rewrite length_fmap in Hs.
  - intros Hnd. eapply sublist_NoDup; eassumption.
Qed.

Lemma reachable_ids_witness :
  ids (component sample_end) `sublist_of` issued sample_session /\
  NoDup (ids (component sample_end)).
Proof.
  destruct (reachable_ids "active" sample_session sample_end eq_refl)
    as (H1 & _ & H2).
  split; [exact H1|]. apply H2. vm_compute. apply NoDup_singleton.
Defined.

(** ** The toast *)

Lemma showToast_ok (message : string) (st : App) :
  message ∈ messages -> toast_ok (showToast message st).
Proof. intros Hm _. exact Hm. Qed.

Lemma toast_ok_same (st st' : App) :
  toastVisible st' = toastVisible st -> toastMessage st' = toastMessage st ->
  toast_ok st -> toast_ok st'.
Proof. unfold toast_ok. intros -> ->. trivial. Qed.

Ltac in_messages := unfold messages; rewrite !elem_of_cons; tauto.

Lemma dispatch_toast_ok (e : Event) (sys sys' : System) :
  system_ok sys -> toast_ok (component sys) -> dispatch e sys = Some sys' ->
  toast_ok (component sys').
Proof.
  intros (Hu & Hr & Hp) Ht H. destruct sys as [st pend]. cbn in Hu, Hr, Hp, Ht.
  destruct e as [text|text|button|now|index| |t|answers|k answer|k answer];
    cbn [dispatch component inflight] in H.
  - injection H as <-. exact Ht.
  - injection H as <-. exact Ht.
  - destruct (units !! button); [|discriminate H]. injection H as <-. exact Ht.
  - destruct (scheduleReminder_cases now st) as [E|[E|(n & Htx & Hn & Hn')]].
    + rewrite E in H. injection H as <-. apply showToast_ok. in_messages.
    + rewrite E in H. injection H as <-. apply showToast_ok. in_messages.
    + rewrite (scheduleReminder_validated now st n) in H by trivial.
      injection H as <-. exact Ht.
  - destruct (reminders st !! index); [|discriminate H].
    cbn [cancelReminder] in H. injection H as <-. exact Ht.
  - injection H as <-. intros Hv. discriminate Hv.
  - injection H as <-. cbn [component].
    apply (toast_ok_same st); trivial.
    + destruct t as [identifier|now next|now]; cbn; trivial.
      unfold setupAppStateHandler.
      now destruct (matches_inactive_or_background (appState st) && String.eqb next "active").
    + destruct t as [identifier|now next|now]; cbn; trivial.
      unfold setupAppStateHandler.
      now destruct (matches_inactive_or_background (appState st) && String.eqb next "active").
  - destruct (register_with registerForPushNotificationsAsync answers)
      as [calls [finish|]] eqn:E; [|discriminate H].
    injection H as <-. cbn [component].
    destruct (register_with_finish answers calls finish st E) as [-> | ->];
      [exact Ht | apply showToast_ok; in_messages].
  - destruct (pend !! k) as [[resume|resume]|] eqn:Hk; try discriminate H.
    injection H as <-. cbn [component].
    assert (Hk' : pending_ok (PendingSchedule resume)).
    { rewrite Forall_forall in Hp. apply Hp. eapply list_elem_of_lookup_2, Hk. }
    destruct Hk' as (st0 & n & [|t] & -> & _).
    { destruct answer as [id|error]; [exact Ht | apply showToast_ok; in_messages]. }
    destruct answer as [id|error]; apply showToast_ok; in_messages.
  - destruct (pend !! k) as [[resume|resume]|] eqn:Hk; try discriminate H.
    injection H as <-. cbn [component].
    assert (Hk' : pending_ok (PendingCancel resume)).
    { rewrite Forall_forall in Hp. apply Hp. eapply list_elem_of_lookup_2, Hk. }
    destruct Hk' as (id & ->).
    destruct answer as [[]|error]; [apply showToast_ok; in_messages | exact Ht].
Qed.

(** X16: whatever the events since the component was mounted, a toast that
    is visible carries one of the six messages of the component. *)
Theorem reachable_toast (currentState : string) (events : list Event) (sys : System) :
  run events (boot currentState) = Some sys ->
  toastVisible (component sys) = true ->
  toastMessage (component sys) ∈ messages.
Proof.
  assert (G : forall events sys0, system_ok sys0 -> toast_ok (component sys0) ->
            run events sys0 = Some sys -> toast_ok (component sys)).
  { clear. intros events. induction events as [|e events IH]; intros sys0 Hok Ht H;
      cbn [run] in H.
    - now injection H as <-.
    - destruct (dispatch e sys0) as [sys1|] eqn:E; [|discriminate H].
      apply (IH sys1); [eapply dispatch_ok | eapply dispatch_toast_ok | ]; eassumption. }
  intros H. apply (G events (boot currentState)); [apply boot_ok | | exact H].
  intros Hv. discriminate Hv.
Qed.

Lemma reachable_toast_witness :
  toastMessage (component sample_end) ∈ messages.
Proof.
  apply (reachable_toast "active" sample_session sample_end); reflexivity.
Defined.

(** ** Leaving and coming back *)

(** X17: going to the background (or to inactive) and coming back compacts
    the store once, at the instant of coming back, whatever the state
    recorded before; an ['active'] repeated after that changes nothing. *)
Theorem setupAppStateHandler_away_and_back (now1 now2 now3 : Z) (away : string)
    (st : App) :
  away = "inactive" \/ away = "background" ->
  let back := setupAppStateHandler now2 "active" (setupAppStateHandler now1 away st) in
  back = setAppState "active" (cleanupExpiredReminders now2 st) /\
  setupAppStateHandler now3 "active" back = back.
Proof.
  intros Haway back.
  assert (Haway' : setupAppStateHandler now1 away st = setAppState away st).
  { unfold setupAppStateHandler.
    replace (String.eqb away "active") with false
      by (destruct Haway as [-> | ->]; reflexivity).
    now rewrite andb_false_r. }
  assert (E : back = setAppState "active" (cleanupExpiredReminders now2 st)).
  { subst back. rewrite Haway'. unfold setupAppStateHandler.
    replace (matches_inactive_or_background (appState (setAppState away st)))
      with true by (destruct Haway as [-> | ->]; reflexivity).
    now destruct st. }
  split; [exact E|]. rewrite E. now destruct st.
Qed.

Lemma setupAppStateHandler_away_and_back_witness :
  reminders (setupAppStateHandler 125000 "active"
               (setupAppStateHandler 1000 "background"
                  (setAppState "active" three_pending)))
  = [water_plants; walk_dog].
Proof.
  rewrite (proj1 (setupAppStateHandler_away_and_back 1000 125000 0 "background"
                    (setAppState "active" three_pending) (or_intror eq_refl))).
  reflexivity.
Defined.
